(** * Noteworthy Composer binary decoder ([noteworthy/binaryTranslate.py])

    A shallow embedding of the [.nwc] decoder: the byte cursor and its
    primitive reads, the document and staff headers, the lyric blocks, the
    object dispatcher with its nineteen variants, and the rendering of the
    decoded records to [.nwctxt] lines.

    Python values are modelled as follows: [bytes] is a list of [Byte.byte];
    [str] is a [string] (every text produced here is latin-1, one character
    per byte); [int] is [Z]; an exception is a [Raise] result. *)

From Stdlib Require Import ZArith Lia List.
From Stdlib Require Import Strings.String Strings.Ascii Strings.Byte.
From stdpp Require Import base option list gmap strings pretty.

Local Open Scope string_scope.
Local Open Scope Z_scope.

(** ** Python values *)

Abbreviation bytes := (list byte).

(** The dynamically typed values that the attributes of the converter and
    of a staff hold. *)
Inductive pyval :=
| PNone
| PBool (b : bool)
| PStr (s : string)
| PBytes (b : bytes).

Inductive exn :=
| StructError
| TypeError
| IndexError
| AttributeError
| ValueError
| ZlibError
| NoteworthyBinaryTranslateException (objectType : Z).

(** Outcome of a call: a value, a raised exception, or the recursion budget
    of the embedding exhausted (only the nested object decoder can do so). *)
Inductive result (A : Type) :=
| Ok (a : A)
| Raise (e : exn)
| OutOfFuel.
Arguments Ok {A} a.
Arguments Raise {A} e.
Arguments OutOfFuel {A}.

Definition b2z (b : byte) : Z := Z.of_N (Byte.to_N b).

Definition latin_1 (b : bytes) : string := string_of_list_byte b.
Definition encode_ascii (s : string) : bytes := list_byte_of_string s.

(** [str(i)] and ['%d' % i]. *)
Definition str (i : Z) : string := pretty i.

(** Normalisation of a slice bound, as [PySlice_AdjustIndices] does. *)
Definition adjust (len i : Z) : Z :=
  if i <? 0 then Z.max 0 (i + len) else Z.min i len.

(** [s[lo:hi]] *)
Definition slice {A} (s : list A) (lo hi : Z) : list A :=
  let n := Z.of_nat (length s) in
  let a := adjust n lo in
  let b := adjust n hi in
  take (Z.to_nat (b - a)) (drop (Z.to_nat a) s).

(** [s[lo:]] *)
Definition slice_from {A} (s : list A) (lo : Z) : list A :=
  drop (Z.to_nat (adjust (Z.of_nat (length s)) lo)) s.

(** [s[i]], with negative indices counted from the end. *)
Definition getitem {A} (s : list A) (i : Z) : result A :=
  let n := Z.of_nat (length s) in
  let j := if i <? 0 then i + n else i in
  if (j <? 0) || (n <=? j) then Raise IndexError
  else match s !! Z.to_nat j with
       | Some x => Ok x
       | None => Raise IndexError
       end.

Fixpoint find_from (l : bytes) (i : Z) : option Z :=
  match l with
  | [] => None
  | b :: t => if Byte.eqb b x00 then Some i else find_from t (i + 1)
  end.

(** [fc.index(0, start)]; [None] stands for the [ValueError]. *)
Definition index0 (fc : bytes) (start : Z) : option Z :=
  let a := adjust (Z.of_nat (length fc)) start in
  find_from (drop (Z.to_nat a) fc) a.

(** [struct.unpack('<h', s)[0]] *)
Definition unpack_h (s : bytes) : result Z :=
  match s with
  | [lo; hi] =>
      let u := b2z lo + 256 * b2z hi in
      Ok (if 32768 <=? u then u - 65536 else u)
  | _ => Raise StructError
  end.

(** [ord(s)] *)
Definition ord (s : bytes) : result Z :=
  match s with
  | [b] => Ok (b2z b)
  | _ => Raise TypeError
  end.

(** ** The converter as a parser state

    [staffLabel] is the [label] attribute of the staff whose objects are
    being decoded: the Text decoder reads and writes it. *)
Record PState := mkPState {
  fileContents : bytes;
  parsePosition : Z;
  version : Z;
  staffLabel : pyval
}.

Definition set_pp (p : PState) (pp : Z) : PState :=
  mkPState (fileContents p) pp (version p) (staffLabel p).
Definition set_version (p : PState) (v : Z) : PState :=
  mkPState (fileContents p) (parsePosition p) v (staffLabel p).
Definition set_label (p : PState) (l : pyval) : PState :=
  mkPState (fileContents p) (parsePosition p) (version p) l.
Definition set_contents (p : PState) (fc : bytes) : PState :=
  mkPState fc (parsePosition p) (version p) (staffLabel p).

Definition M (A : Type) : Type := PState -> result (A * PState).

Definition ret {A} (a : A) : M A := fun p => Ok (a, p).
Definition raise {A} (e : exn) : M A := fun _ => Raise e.
Definition bind {A B} (m : M A) (k : A -> M B) : M B :=
  fun p => match m p with
           | Ok (a, p') => k a p'
           | Raise e => Raise e
           | OutOfFuel => OutOfFuel
           end.
Definition lift {A} (r : result A) : M A :=
  fun p => match r with
           | Ok a => Ok (a, p)
           | Raise e => Raise e
           | OutOfFuel => OutOfFuel
           end.
Definition get : M PState := fun p => Ok (p, p).
Definition put (q : PState) : M unit := fun _ => Ok (tt, q).

Notation "'let*' x ':=' c 'in' k" := (bind c (fun x => k))
  (at level 10, x name, c at level 100, k at level 200).
Notation "c ';;' k" := (bind c (fun _ => k))
  (at level 100, k at level 200, right associativity).

(** ** Primitive reads ([NWCConverter]) *)

Definition readLEShort (updateParsePosition : bool) : M Z :=
  fun p =>
    let fc := fileContents p in
    let pp := parsePosition p in
    match unpack_h (slice fc pp (pp + 2)) with
    | Ok value =>
        Ok (value, if updateParsePosition then set_pp p (pp + 2) else p)
    | Raise e => Raise e
    | OutOfFuel => OutOfFuel
    end.

Definition byteToInt (updateParsePosition : bool) : M Z :=
  fun p =>
    let fc := fileContents p in
    let pp := parsePosition p in
    match ord (slice fc pp (pp + 1)) with
    | Ok value =>
        Ok (value, if updateParsePosition then set_pp p (pp + 1) else p)
    | Raise e => Raise e
    | OutOfFuel => OutOfFuel
    end.

Definition byteToSignedInt (updateParsePosition : bool) : M Z :=
  let* val := byteToInt updateParsePosition in
  ret (if 127 <? val then val - 256 else val).

Definition readBytes (bytesToRead : Z) (updateParsePosition : bool) : M bytes :=
  fun p =>
    let fc := fileContents p in
    let pp := parsePosition p in
    let value := slice fc pp (pp + bytesToRead) in
    Ok (value, if updateParsePosition then set_pp p (pp + bytesToRead) else p).

Definition readToNUL (updateParsePosition : bool) : M bytes :=
  fun p =>
    let fc := fileContents p in
    let nulPosition :=
      match index0 fc (parsePosition p) with
      | Some i => i
      | None => -1
      end in
    let r :=
      if nulPosition =? -1 then slice_from fc (parsePosition p)
      else slice fc (parsePosition p) nulPosition in
    Ok (r, if updateParsePosition then set_pp p (nulPosition + 1) else p).

Definition skipBytes (numBytes : Z) : M unit :=
  fun p => Ok (tt, set_pp p (parsePosition p + numBytes)).

(** ** Reference tables of [noteworthy/constants.py]

    The tables are supplied by the environment; the decoder only indexes
    them.  [FlatMask] and [SharpMask] are taken to be dictionaries keyed by
    the key-signature bit mask. *)
Class Constants := {
  MidiInstruments : list string;
  ClefNames : list string;
  OctaveShiftNames : list string;
  FlatMask : gmap Z string;
  SharpMask : gmap Z string;
  styles : list string
}.

Definition len {A} (l : list A) : Z := Z.of_nat (length l).

#[global] Instance byte_eq_dec : EqDecision byte := Byte.byte_eq_dec.

(** [b != s] for a [bytes] object [b] and a [str] object [s]: objects of
    the two types never compare equal. *)
Definition bytes_ne_str (b : bytes) (s : string) : bool := true.

(** ** Preamble and version *)

Definition isValidNWCFile (updateParsePosition : bool) : M bool :=
  let* p0 := get in
  let storedPP := parsePosition p0 in
  put (set_pp p0 0) ;;
  let* header1 := readToNUL true in
  if negb (bool_decide (header1 = encode_ascii "[NoteWorthy ArtWare]"))
  then ret false
  else
    readToNUL true ;;
    readToNUL true ;;
    let* header2 := readToNUL true in
    if bytes_ne_str header2 "[NoteWorthy Composer]"
    then ret false
    else
      let* p1 := get in
      (if negb updateParsePosition && negb (storedPP =? 0)
       then put (set_pp p1 storedPP) else ret tt) ;;
      ret true.

Definition versionFromHex : gmap Z Z :=
  list_to_map
    [(0x0114, 120); (0x011E, 130); (0x0132, 150); (0x0137, 155);
     (0x0146, 170); (0x014B, 175); (0x0200, 200); (0x0201, 201)].

Definition fileVersion (updateParsePosition : bool) : M Z :=
  let* p0 := get in
  let storedPP := parsePosition p0 in
  put (set_pp p0 45) ;;
  let* fileVersionRaw := readLEShort updateParsePosition in
  let* p1 := get in
  (if negb updateParsePosition then put (set_pp p1 storedPP) else ret tt) ;;
  let v := match versionFromHex !! fileVersionRaw with
           | Some v => v
           | None => 201
           end in
  let* p2 := get in
  put (set_version p2 v) ;;
  ret v.

(** The loop of [advanceToNotNUL]; it leaves the buffer after at most
    [length fc] steps, see [advance_loop_stops]. *)
Fixpoint advance_loop (fuel : nat) (fc : bytes) (pp : Z) : Z :=
  match fuel with
  | O => pp
  | S fuel' =>
      if bool_decide (slice fc pp (pp + 1) = [x00])
      then advance_loop fuel' fc (pp + 1)
      else pp
  end.

Definition advanceToNotNUL : M unit :=
  fun p =>
    let fc := fileContents p in
    Ok (tt, set_pp p (advance_loop (S (length fc)) fc (parsePosition p))).

(** ** Document header *)

Record Font := mkFont {
  font_name : bytes;
  font_style : Z;
  font_size : Z;
  font_charset : Z
}.

Record Header := mkHeader {
  user : bytes;
  title : pyval;
  author : pyval;
  lyricist : pyval;
  copyright1 : bytes;
  copyright2 : bytes;
  comment : bytes;
  extendLastSystem : bytes;
  increaseNoteSpacing : bytes;
  measureNumbers : bytes;
  measureStart : Z;
  margins : pyval;
  sins : bytes;
  groupVisibility : pyval;
  allowLayering : pyval;
  notationTypeface : pyval;
  staffHeight : Z;
  fonts : list Font;
  titlePageInfo : Z;
  staffLabels : Z;
  pageNumberStart : Z;
  numberOfStaves : Z
}.

Definition readFont : M Font :=
  let* name := readToNUL true in
  let* style := byteToInt true in
  let* size := byteToInt true in
  byteToInt true ;;
  let* charset := byteToInt true in
  let name := if bool_decide (name = []) then encode_ascii "Times New Roman" else name in
  let size := if size =? 0 then 12 else size in
  ret (mkFont name style size charset).

(** [for i in range(n): body], collecting the values of the body. *)
Fixpoint repeatM {A} (n : nat) (body : M A) : M (list A) :=
  match n with
  | O => ret []
  | S n' =>
      let* x := body in
      let* xs := repeatM n' body in
      ret (x :: xs)
  end.

(** [parseHeader] from its second statement on. *)
Definition parseHeaderFields : M Header :=
  let* version := fileVersion true in
  skipBytes 4 ;;
  let* user := readToNUL true in
  readToNUL true ;;
  skipBytes 10 ;;
  let* title := readToNUL true in
  let* author := readToNUL true in
  let* lyricist :=
    if 200 <=? version
    then (let* l := readToNUL true in ret (PBytes l))
    else ret PNone in
  let* copyright1 := readToNUL true in
  let* copyright2 := readToNUL true in
  let* comment := readToNUL true in
  let* extendLastSystem := readToNUL true in
  let* increaseNoteSpacing := readToNUL true in
  readToNUL true ;;
  let* measureNumbers := readToNUL true in
  readToNUL true ;;
  let* measureStart := readLEShort true in
  let* margins :=
    if 130 <=? version
    then (let* m := readToNUL true in ret (PBytes m))
    else ret (PStr "0.0 0.0 0.0 0.0") in
  let* sins := readToNUL true in
  readToNUL true ;;
  let* groupVisibility :=
    if 130 <=? version
    then (let* g := readToNUL true in ret (PBytes g))
    else ret (PBool true) in
  let* allowLayering :=
    if 130 <=? version
    then (let* a := readToNUL true in ret (PBytes a))
    else ret (PBool true) in
  let* notationTypeface :=
    if 200 <=? version
    then (let* t := readToNUL true in ret (PBytes t))
    else ret (PStr "Maestro") in
  let* staffHeight := readLEShort true in
  let fontCount :=
    if 170 <? version then 12%nat
    else if 130 <? version then 10%nat
    else 0%nat in
  advanceToNotNUL ;;
  skipBytes 2 ;;
  let* fonts := repeatM fontCount readFont in
  let* titlePageInfo := byteToInt true in
  let* staffLabels := byteToInt true in
  let* pageNumberStart := readLEShort true in
  (if 200 <=? version then skipBytes 1 else ret tt) ;;
  let* numberOfStaves := byteToInt true in
  skipBytes 1 ;;
  ret (mkHeader user (PBytes title) (PBytes author) lyricist copyright1
         copyright2 comment extendLastSystem increaseNoteSpacing
         measureNumbers measureStart margins sins groupVisibility
         allowLayering notationTypeface staffHeight fonts titlePageInfo
         staffLabels pageNumberStart numberOfStaves).

Definition parseHeader : M Header :=
  isValidNWCFile true ;;
  parseHeaderFields.

(** ** Object records ([NWCObject])

    One constructor per entry of [objMethods], carrying the attributes that
    the decoder of that entry assigns; [visible] is assigned by
    [parseObject] itself.  The attributes that [__init__] defaults and a
    decoder leaves alone are recovered by the accessors below. *)
Module NWCObject.

Inductive Parent := StaffParent | ObjectParent.

Inductive t :=
| Clef (visible clefType octaveShift : Z) (clefName octaveShiftName : option string)
| KeySig (visible flats sharps : Z) (keyString : string)
| Barline (visible style localRepeatCount : Z)
| Ending (visible style : Z)
| Instrument (visible : Z) (name : bytes)
| TimeSignature (visible numerator bits denominator style : Z)
| Tempo (visible pos placement value base : Z) (text : bytes)
| Dynamic (visible pos placement style velocity volume : Z)
| Note (visible duration : Z) (data2 attribute1 : bytes) (pos attribute2 : Z)
       (data3 : option bytes) (stemLength dotAttribute dots : Z)
       (durationStr alterationStr tieInfo : string)
| Rest (visible duration : Z) (data2 : bytes) (offset dotAttribute dots : Z)
       (durationStr : string)
| NoteChordMember (visible : Z) (data1 : bytes) (stemLength : Z) (data2 : list t)
| Pedal (visible pos placement style : Z)
| FlowDir (visible pos placement style : Z)
| MPC (visible pos placement : Z) (data1 : bytes)
| TempoVariation (visible pos placement style delay : Z)
| DynamicVariation (visible pos placement style : Z)
| Performance (visible pos placement style : Z)
| Text (visible pos data font : Z) (text : option bytes)
| RestChordMember (visible count : Z).

(** [self.type] *)
Definition type (o : t) : string :=
  match o with
  | Clef _ _ _ _ _ => "Clef"
  | KeySig _ _ _ _ => "KeySig"
  | Barline _ _ _ => "Barline"
  | Ending _ _ => "Ending"
  | Instrument _ _ => "Instrument"
  | TimeSignature _ _ _ _ _ => "TimeSignature"
  | Tempo _ _ _ _ _ _ => "Tempo"
  | Dynamic _ _ _ _ _ _ => "Dynamic"
  | Note _ _ _ _ _ _ _ _ _ _ _ _ _ => "Note"
  | Rest _ _ _ _ _ _ _ => "Rest"
  | NoteChordMember _ _ _ _ => "NoteChordMember"
  | Pedal _ _ _ _ => "Pedal"
  | FlowDir _ _ _ _ => "FlowDir"
  | MPC _ _ _ _ => "MPC"
  | TempoVariation _ _ _ _ _ => "TempoVariation"
  | DynamicVariation _ _ _ _ => "DynamicVariation"
  | Performance _ _ _ _ => "Performance"
  | Text _ _ _ _ _ => "Text"
  | RestChordMember _ _ => "RestChordMember"
  end.

(** [self.durationStr], [None] unless a Note or a Rest. *)
Definition durationStr (o : t) : option string :=
  match o with
  | Note _ _ _ _ _ _ _ _ _ _ d _ _ => Some d
  | Rest _ _ _ _ _ _ d => Some d
  | _ => None
  end.

(** [self.alterationStr], [''] unless a Note. *)
Definition alterationStr (o : t) : string :=
  match o with
  | Note _ _ _ _ _ _ _ _ _ _ _ a _ => a
  | _ => ""
  end.

(** [self.tieInfo], [''] unless a Note. *)
Definition tieInfo (o : t) : string :=
  match o with
  | Note _ _ _ _ _ _ _ _ _ _ _ _ ti => ti
  | _ => ""
  end.

(** [self.pos], [0] unless a decoder assigned it. *)
Definition pos (o : t) : Z :=
  match o with
  | Tempo _ p _ _ _ _ | Dynamic _ p _ _ _ _ | Note _ _ _ _ p _ _ _ _ _ _ _ _
  | Pedal _ p _ _ | FlowDir _ p _ _ | MPC _ p _ _ | TempoVariation _ p _ _ _
  | DynamicVariation _ p _ _ | Performance _ p _ _ | Text _ p _ _ _ => p
  | _ => 0
  end.

Definition getVersion : M Z := fun p => Ok (version p, p).

Section Decoders.
Context {C : Constants}.

Definition clef (parent : Parent) (visible : Z) : M t :=
  let* clefType := readLEShort true in
  let* octaveShift := readLEShort true in
  let* clefName :=
    if clefType <? len ClefNames
    then (let* n := lift (getitem ClefNames clefType) in ret (Some n))
    else ret None in
  let* octaveShiftName :=
    if octaveShift <? len OctaveShiftNames
    then (let* n := lift (getitem OctaveShiftNames octaveShift) in ret (Some n))
    else ret None in
  ret (Clef visible clefType octaveShift clefName octaveShiftName).

Definition keySig (parent : Parent) (visible : Z) : M t :=
  let* flats := byteToInt true in
  skipBytes 1 ;;
  let* sharps := byteToInt true in
  skipBytes 7 ;;
  let keyString :=
    match (if 0 <? flats then FlatMask !! flats else None) with
    | Some k => k
    | None =>
        match (if 0 <? sharps then SharpMask !! sharps else None) with
        | Some k => k
        | None => ""
        end
    end in
  ret (KeySig visible flats sharps keyString).

Definition barline (parent : Parent) (visible : Z) : M t :=
  let* style := byteToInt true in
  let* localRepeatCount := byteToInt true in
  ret (Barline visible style localRepeatCount).

Definition ending (parent : Parent) (visible : Z) : M t :=
  let* style := byteToInt true in
  skipBytes 1 ;;
  ret (Ending visible style).

Definition instrument (parent : Parent) (visible : Z) : M t :=
  skipBytes 8 ;;
  let* name := readToNUL true in
  skipBytes 1 ;;
  skipBytes 8 ;;
  ret (Instrument visible name).

Definition timeSig (parent : Parent) (visible : Z) : M t :=
  let* numerator := readLEShort true in
  let* bits := readLEShort true in
  let* denominator :=
    if bits <? 0 then raise ValueError else ret (Z.shiftl 1 bits) in
  let* style := readLEShort true in
  ret (TimeSignature visible numerator bits denominator style).

Definition tempo (parent : Parent) (visible : Z) : M t :=
  let* pos := byteToInt true in
  let* placement := byteToInt true in
  let* value := readLEShort true in
  let* base := byteToInt true in
  let* version := getVersion in
  (if version <? 170 then (readLEShort true ;; ret tt) else ret tt) ;;
  let* text := readToNUL true in
  ret (Tempo visible pos placement value base text).

Definition dynamic (parent : Parent) (visible : Z) : M t :=
  let* version := getVersion in
  if version <? 170 then ret (Dynamic visible 0 0 0 0 0)
  else
    let* pos := byteToInt true in
    let* placement := byteToInt true in
    let* style := byteToInt true in
    let* velocity := readLEShort true in
    let* volume := readLEShort true in
    ret (Dynamic visible pos placement style velocity volume).

Definition durationValues : list string :=
  ["Whole"; "Half"; "4th"; "8th"; "16th"; "32nd"; "64th"].

(** Indexing an attribute that may still hold [None]. *)
Definition getitem_opt (s : option bytes) (i : Z) : result Z :=
  match s with
  | None => Raise TypeError
  | Some b => match getitem b i with
              | Ok x => Ok (b2z x)
              | Raise e => Raise e
              | OutOfFuel => OutOfFuel
              end
  end.

(** [setDurationForObject]: the values assigned to [dotAttribute] and
    [dots], and the returned duration string. *)
Definition setDurationForObject (isNote : bool) (duration : Z)
    (attribute1 data2 : option bytes) : M (Z * Z * string) :=
  let* durStr := lift (getitem durationValues duration) in
  let* dg :=
    if isNote
    then (let* d := lift (getitem_opt attribute1 0) in
          let* a := lift (getitem_opt attribute1 1) in
          ret (d, Z.land a 0x20))
    else (let* d := lift (getitem_opt data2 3) in ret (d, 0)) in
  let ordDot := fst dg in
  let grace := snd dg in
  let dots :=
    if 0 <? Z.land ordDot 0x01 then 2
    else if 0 <? Z.land ordDot 0x04 then 1
    else 0 in
  let durStr :=
    if dots =? 1 then durStr +:+ ",Dotted"
    else if dots =? 2 then durStr +:+ ",DblDotted"
    else durStr in
  let durStr := if 0 <? grace then durStr +:+ ",Grace" else durStr in
  ret (ordDot, dots, durStr).

Definition alterationTexts : list string := ["#"; "b"; "n"; "##"; "bb"; ""].

Definition note (parent : Parent) (visible : Z) : M t :=
  let* version := getVersion in
  if version <? 170
  then
    let* _ := setDurationForObject true 0 None None in
    raise TypeError
  else
    let* duration := byteToInt true in
    let* data2 := readBytes 3 true in
    let* attribute1 := readBytes 2 true in
    let* sp := byteToSignedInt true in
    let pos := -1 * sp in
    let* attribute2 := byteToInt true in
    let* data3 :=
      if version <=? 170
      then (let* d := readBytes 2 true in ret (Some d))
      else ret None in
    let* stemLength :=
      if 200 <=? version
      then (if negb (Z.land attribute2 0x40 =? 0) then byteToInt true else ret 7)
      else ret 7 in
    let* dur := setDurationForObject true duration (Some attribute1) (Some data2) in
    let '(dotAttribute, dots, durationStr) := dur in
    let alterationIndex := Z.land attribute2 0x07 in
    let* alterationStr :=
      if alterationIndex <? len alterationTexts
      then lift (getitem alterationTexts alterationIndex)
      else ret "" in
    let* ordAtt1 := lift (getitem_opt (Some attribute1) 0) in
    let tieInfo := if 0 <? Z.land ordAtt1 0x10 then "^" else "" in
    ret (Note visible duration data2 attribute1 pos attribute2 data3
           stemLength dotAttribute dots durationStr alterationStr tieInfo).

Definition rest (parent : Parent) (visible : Z) : M t :=
  let* version := getVersion in
  if version <=? 150
  then
    let* _ := setDurationForObject false 0 None None in
    raise TypeError
  else
    let* duration := byteToInt true in
    let* data2 := readBytes 5 true in
    let* offset := readLEShort true in
    let* dur := setDurationForObject false duration None (Some data2) in
    let '(dotAttribute, dots, durationStr) := dur in
    ret (Rest visible duration data2 offset dotAttribute dots durationStr).

(** [parseObject] is the decoder of the nested records, see [parseObject]
    below. *)
Definition noteChordMember (parseObject : Parent -> M t)
    (parent : Parent) (visible : Z) : M t :=
  let* version := getVersion in
  let* dn :=
    if version <=? 170
    then (let* d := readBytes 12 true in ret (d, 0))
    else if version =? 175
    then (let* d := readBytes 10 true in
          let* n := lift (getitem_opt (Some d) 8) in
          ret (d, n))
    else (let* d := readBytes 8 true in ret (d, 0)) in
  let data1 := fst dn in
  let numberOfNotes := snd dn in
  let* stemLength :=
    if 200 <=? version
    then (let* f := lift (getitem_opt (Some data1) 7) in
          if negb (Z.land f 0x40 =? 0) then byteToInt true else ret 7)
    else ret 7 in
  let* data2 := repeatM (Z.to_nat numberOfNotes) (parseObject ObjectParent) in
  ret (NoteChordMember visible data1 stemLength data2).

Definition pedal (parent : Parent) (visible : Z) : M t :=
  let* version := getVersion in
  if version <? 170 then ret (Pedal visible 0 0 0)
  else
    let* pos := byteToInt true in
    let* placement := byteToInt true in
    let* style := byteToInt true in
    ret (Pedal visible pos placement style).

Definition flowDir (parent : Parent) (visible : Z) : M t :=
  let* version := getVersion in
  let* pp :=
    if 170 <=? version
    then (let* pos := byteToInt true in
          let* placement := byteToInt true in
          ret (pos, placement))
    else ret (-8, 0x01) in
  let* style := readLEShort true in
  ret (FlowDir visible (fst pp) (snd pp) style).

Definition mpc (parent : Parent) (visible : Z) : M t :=
  let* pos := byteToInt true in
  let* placement := byteToInt true in
  let* version := getVersion in
  let* data1 :=
    if version =? 175 then readBytes 32 true
    else if 155 <? version then readBytes 31 true
    else readBytes 32 true in
  ret (MPC visible pos placement data1).

Definition tempoVariation (parent : Parent) (visible : Z) : M t :=
  let* version := getVersion in
  if 170 <=? version
  then
    let* pos := byteToInt true in
    let* placement := byteToInt true in
    let* style := byteToInt true in
    let* delay := byteToInt true in
    ret (TempoVariation visible pos placement style delay)
  else
    let* style := byteToInt true in
    let style := Z.land style 0x0F in
    let* pos := byteToInt true in
    let* placement := byteToInt true in
    let* delay := byteToInt true in
    ret (TempoVariation visible pos placement style delay).

Definition dynamicVariation (parent : Parent) (visible : Z) : M t :=
  let* pos := byteToInt true in
  let* version := getVersion in
  let* placement := if 170 <=? version then byteToInt true else ret 0 in
  let* style := byteToInt true in
  ret (DynamicVariation visible pos placement style).

Definition performance (parent : Parent) (visible : Z) : M t :=
  let* pos := byteToInt true in
  let* version := getVersion in
  let* placement := if 170 <=? version then byteToInt true else ret 0 in
  let* style := byteToInt true in
  ret (Performance visible pos placement style).

Definition textObj (parent : Parent) (visible : Z) : M t :=
  let* pos := byteToInt true in
  let* data := byteToInt true in
  let* font := byteToInt true in
  let* text := readToNUL true in
  match parent with
  | ObjectParent => raise AttributeError
  | StaffParent =>
      let* p := get in
      match staffLabel p with
      | PNone =>
          put (set_label p (PStr (latin_1 text))) ;;
          ret (Text visible pos data font None)
      | _ => ret (Text visible pos data font (Some text))
      end
  end.

Definition restChordMember (parent : Parent) (visible : Z) : M t :=
  let* count := readLEShort true in
  skipBytes 8 ;;
  ret (RestChordMember visible count).

Definition objMethods (parseObject : Parent -> M t)
  : list (Parent -> Z -> M t) :=
  [ clef; keySig; barline; ending; instrument; timeSig; tempo; dynamic;
    note; rest; noteChordMember parseObject; pedal; flowDir; mpc;
    tempoVariation; dynamicVariation; performance; textObj;
    restChordMember ].

(** [fuel] bounds the nesting depth of chord members. *)
Fixpoint parseObject (fuel : nat) (parent : Parent) : M t :=
  match fuel with
  | O => fun _ => OutOfFuel
  | S fuel' =>
      let* objectType := readLEShort true in
      if (len (objMethods (parseObject fuel')) <=? objectType) || (objectType <? 0)
      then raise (NoteworthyBinaryTranslateException objectType)
      else
        let* version := getVersion in
        let* visible := if 170 <=? version then byteToInt true else ret 0 in
        let* objectMethod := lift (getitem (objMethods (parseObject fuel')) objectType) in
        objectMethod parent visible
  end.

(** *** Rendering

    The [dump] closures.  [previousAlteration] is the dictionary that the
    closures of Note and Barline share through the parser; [instrumentName]
    is the attribute of the owning staff that the Clef closure reads. *)

Definition truthy (s : option string) : option string :=
  match s with
  | Some "" => None
  | _ => s
  end.

(** [notes[k].append(v)], creating the entry at the end when absent. *)
Fixpoint notes_append (k : option string) (v : string)
    (notes : list (option string * list string))
  : list (option string * list string) :=
  match notes with
  | [] => [(k, [v])]
  | (k', vs) :: rest =>
      if bool_decide (k = k') then (k', (vs ++ [v])%list) :: rest
      else (k', vs) :: notes_append k v rest
  end.

Fixpoint join (sep : string) (l : list string) : string :=
  match l with
  | [] => ""
  | [x] => x
  | x :: rest => x +:+ sep +:+ join sep rest
  end.

Definition chord_notes (data2 : list t) : list (option string * list string) :=
  fold_left
    (fun notes d =>
       notes_append (durationStr d)
         (alterationStr d +:+ str (pos d) +:+ tieInfo d) notes)
    data2 [].

Fixpoint chord_build (build : string)
    (notes : list (option string * list string)) : result string :=
  match notes with
  | [] => Ok build
  | (None, _) :: _ => Raise TypeError
  | (Some n, vs) :: rest =>
      chord_build (build +:+ "|Dur:" +:+ n +:+ "|Pos:" +:+ join "," vs) rest
  end.

Definition dumpMethod (instrumentName : pyval) (o : t)
    (previousAlteration : gmap Z string)
  : result (string * gmap Z string) :=
  match o with
  | Clef _ _ _ clefName octaveShiftName =>
      let clefName :=
        match instrumentName with
        | PStr "Gunshot" => Some "Percussion"
        | _ => clefName
        end in
      let build := "|Clef|" in
      let build :=
        match truthy clefName with
        | Some n => build +:+ "Type:" +:+ n +:+ "|"
        | None => build
        end in
      let build :=
        match truthy octaveShiftName with
        | Some n => build +:+ "OctaveShift:" +:+ n +:+ "|"
        | None => build
        end in
      Ok (build, previousAlteration)
  | KeySig _ _ _ keyString =>
      Ok ("|Key|Signature:" +:+ keyString, previousAlteration)
  | Barline _ style _ =>
      let build := "|Bar|" in
      if (0 <? style) && (style <? len styles)
      then match getitem styles style with
           | Ok styleString => Ok (build +:+ "|Style:" +:+ styleString, ∅)
           | Raise e => Raise e
           | OutOfFuel => OutOfFuel
           end
      else Ok (build, ∅)
  | Ending _ style =>
      Ok ("|Ending|Endings:" +:+ str style, previousAlteration)
  | TimeSignature _ numerator _ denominator _ =>
      Ok ("|TimeSig|Signature:" +:+ str numerator +:+ "/" +:+ str denominator,
          previousAlteration)
  | Tempo _ _ _ value _ _ =>
      Ok ("|Tempo|Tempo:" +:+ str value, previousAlteration)
  | Note _ _ _ _ pos _ _ _ _ _ durationStr alterationStr tieInfo =>
      let build := "|Note|Dur:" +:+ durationStr +:+ "|" in
      let alteration :=
        if bool_decide (alterationStr = "")
        then previousAlteration !! (pos `mod` 7)
        else Some alterationStr in
      let alteration :=
        match alteration with
        | None => ""
        | Some a => a
        end in
      let build := build +:+ ("Pos:" +:+ alteration +:+ str pos +:+ tieInfo +:+ "|") in
      Ok (build, <[pos `mod` 7 := alterationStr]> previousAlteration)
  | Rest _ _ _ _ _ _ durationStr =>
      Ok ("|Rest|Dur:" +:+ durationStr +:+ "|", previousAlteration)
  | NoteChordMember _ _ _ data2 =>
      match chord_build "|Chord" (chord_notes data2) with
      | Ok build => Ok (build, previousAlteration)
      | Raise e => Raise e
      | OutOfFuel => OutOfFuel
      end
  | Text _ _ _ _ (Some text) =>
      Ok ("|Text|Text:" +:+ latin_1 text, previousAlteration)
  | _ => Ok ("", previousAlteration)
  end.

End Decoders.
End NWCObject.

(** ** Staves ([NWCStaff]) *)
Module NWCStaff.

Record t := mk {
  name : bytes;
  label : pyval;
  instrumentName : pyval;
  group : bytes;
  lines : Z;
  layerWithNextStaff : option Z;
  transposition : option Z;
  partVolume : option Z;
  stereoPan : option Z;
  color : Z;
  alignSyllable : option Z;
  numberOfLyrics : Z;
  lyricAlignment : Z;
  staffOffset : Z;
  lyrics : list (list bytes);
  numberOfObjects : Z;
  objects : list NWCObject.t
}.

(** The attributes that [parseHeader] assigns; the label goes to the
    parser state, where the Text decoder finds it. *)
Record header := mkHeader {
  h_name : bytes;
  h_instrumentName : pyval;
  h_group : bytes;
  h_lines : Z;
  h_layerWithNextStaff : option Z;
  h_transposition : option Z;
  h_partVolume : option Z;
  h_stereoPan : option Z;
  h_color : Z;
  h_alignSyllable : option Z;
  h_numberOfLyrics : Z;
  h_lyricAlignment : Z;
  h_staffOffset : Z
}.

Section Staff.
Context {C : Constants}.

Definition setLabel (l : pyval) : M unit :=
  fun p => Ok (tt, set_label p l).

Definition parseHeader : M header :=
  let* name := readToNUL true in
  let* version := NWCObject.getVersion in
  let* instrumentName :=
    if 200 <=? version
    then (let* l := readToNUL true in
          setLabel (PBytes l) ;;
          let* i := readToNUL true in
          ret (PBytes i))
    else (setLabel PNone ;; ret PNone) in
  let* group := readToNUL true in
  let* h :=
    if 200 <=? version
    then
      skipBytes 27 ;;
      let* lines := byteToInt true in
      let* layerWithNextStaff := readLEShort true in
      let* transposition := readLEShort true in
      let* partVolume := readLEShort true in
      let* stereoPan := readLEShort true in
      let* color := byteToInt true in
      let* alignSyllable := readLEShort true in
      let* numberOfLyrics := readLEShort true in
      ret (mkHeader name instrumentName group lines (Some layerWithNextStaff)
             (Some transposition) (Some partVolume) (Some stereoPan) color
             (Some alignSyllable) numberOfLyrics 0 0)
    else if version =? 175
    then
      skipBytes 11 ;;
      let* instruPatch := byteToInt true in
      let* instrumentName :=
        if instruPatch <? len MidiInstruments
        then (let* n := lift (getitem MidiInstruments (instruPatch - 1)) in
              ret (PStr n))
        else ret instrumentName in
      skipBytes 10 ;;
      let* transposition := byteToSignedInt true in
      skipBytes 6 ;;
      let* alignSyllable := readLEShort true in
      let* numberOfLyrics := readLEShort true in
      ret (mkHeader name instrumentName group 0 None (Some transposition)
             None None 0 (Some alignSyllable) numberOfLyrics 0 0)
    else
      ret (mkHeader name instrumentName group 0 None None None None 0 None
             0 0 0) in
  if 0 <? h_numberOfLyrics h
  then
    let* lyricAlignment := readLEShort true in
    let* staffOffset := readLEShort true in
    ret (mkHeader (h_name h) (h_instrumentName h) (h_group h) (h_lines h)
           (h_layerWithNextStaff h) (h_transposition h) (h_partVolume h)
           (h_stereoPan h) (h_color h) (h_alignSyllable h)
           (h_numberOfLyrics h) lyricAlignment staffOffset)
  else ret h.

(** The [while] loop over the syllables of one block; [maxRead] is the
    number of reads still allowed. *)
Fixpoint scanSyllables (maxRead : nat) : M (list bytes) :=
  match maxRead with
  | O => ret []
  | S maxRead' =>
      let* syllable := readToNUL true in
      if bool_decide (syllable = []) then ret []
      else
        let* syllables := scanSyllables maxRead' in
        ret (syllable :: syllables)
  end.

(** [try: p.readLEShort() except struct.error: 0] *)
Definition readBlockSize : M Z :=
  fun p => match readLEShort true p with
           | Raise StructError => Ok (0, p)
           | r => r
           end.

Definition getPosition : M Z := fun p => Ok (parsePosition p, p).
Definition setPosition (pp : Z) : M unit := fun p => Ok (tt, set_pp p pp).

(** The body of the [for] loop of [parseLyrics] once the block size is
    known to be positive. *)
Definition parseLyricBlock (lyricBlockSize : Z) : M (list bytes) :=
  readLEShort true ;;
  let* parsePositionStart := getPosition in
  readLEShort true ;;
  let* syllables := scanSyllables 1000 in
  setPosition (parsePositionStart + lyricBlockSize) ;;
  ret syllables.

Fixpoint lyricSlots (n : nat) : M (list (list bytes)) :=
  match n with
  | O => ret []
  | S n' =>
      let* lyricBlockSize := readBlockSize in
      if 0 <? lyricBlockSize
      then
        let* syllables := parseLyricBlock lyricBlockSize in
        let* lyrics := lyricSlots n' in
        ret (syllables :: lyrics)
      else lyricSlots n'
  end.

Definition parseLyrics (numberOfLyrics : Z) : M (list (list bytes)) :=
  let* lyrics := lyricSlots (Z.to_nat numberOfLyrics) in
  (if 0 <? numberOfLyrics then (readLEShort true ;; ret tt) else ret tt) ;;
  readLEShort true ;;
  ret lyrics.

Definition parseObjects (fuel : nat) : M (Z * list NWCObject.t) :=
  let* n := readLEShort true in
  let* version := NWCObject.getVersion in
  let numberOfObjects := if 150 <? version then n - 2 else n in
  let* objects :=
    repeatM (Z.to_nat numberOfObjects)
      (NWCObject.parseObject fuel NWCObject.StaffParent) in
  ret (numberOfObjects, objects).

Definition parseStaff (fuel : nat) : M t :=
  setLabel PNone ;;
  let* h := parseHeader in
  let* lyrics := parseLyrics (h_numberOfLyrics h) in
  let* no := parseObjects fuel in
  let* p := get in
  ret (mk (h_name h) (staffLabel p) (h_instrumentName h) (h_group h)
         (h_lines h) (h_layerWithNextStaff h) (h_transposition h)
         (h_partVolume h) (h_stereoPan h) (h_color h) (h_alignSyllable h)
         (h_numberOfLyrics h) (h_lyricAlignment h) (h_staffOffset h)
         lyrics (fst no) (snd no)).

(** ['text' + v] *)
Definition concat_str (s : string) (v : pyval) : result string :=
  match v with
  | PStr s' => Ok (s +:+ s')
  | _ => Raise TypeError
  end.

Fixpoint list_index (x : string) (l : list string) (i : Z) : result Z :=
  match l with
  | [] => Raise ValueError
  | y :: rest => if bool_decide (x = y) then Ok i else list_index x rest (i + 1)
  end.

(** [str(self.transposition)] *)
Definition str_opt (v : option Z) : string :=
  match v with
  | None => "None"
  | Some i => str i
  end.

(** The [for] loop of [dump]: the non-empty renderings, in order. *)
Fixpoint dumpObjects (instrumentName : pyval) (objects : list NWCObject.t)
    (previousAlteration : gmap Z string)
  : result (list string * gmap Z string) :=
  match objects with
  | [] => Ok ([], previousAlteration)
  | o :: rest =>
      match NWCObject.dumpMethod instrumentName o previousAlteration with
      | Ok (d, previousAlteration') =>
          match dumpObjects instrumentName rest previousAlteration' with
          | Ok (ds, final) =>
              Ok (if bool_decide (d = "") then ds else d :: ds, final)
          | r => r
          end
      | Raise e => Raise e
      | OutOfFuel => OutOfFuel
      end
  end.

Definition dump (s : t) (previousAlteration : gmap Z string)
  : result (list string * gmap Z string) :=
  let label :=
    match label s with
    | PNone =>
        match instrumentName s with
        | PNone => PStr "NoName"
        | i => i
        end
    | l => l
    end in
  match concat_str "|AddStaff|Name:" label with
  | Ok addStaff =>
      match concat_str "|Name:" (instrumentName s) with
      | Ok instru =>
          match instrumentName s with
          | PStr i =>
              match list_index i MidiInstruments 0 with
              | Ok idx =>
                  let patch := "|Patch:" +:+ str idx in
                  let transpo := "|Trans:" +:+ str_opt (transposition s) in
                  match dumpObjects (instrumentName s) (objects s)
                          previousAlteration with
                  | Ok (ds, final) =>
                      Ok (addStaff
                          :: ("|StaffInstrument" +:+ instru +:+ patch +:+ transpo)
                          :: ds, final)
                  | r => r
                  end
              | Raise e => Raise e
              | OutOfFuel => OutOfFuel
              end
          | _ => Raise TypeError
          end
      | Raise e => Raise e
      | OutOfFuel => OutOfFuel
      end
  | Raise e => Raise e
  | OutOfFuel => OutOfFuel
  end.

End Staff.
End NWCStaff.

(** ** The whole document ([NWCConverter]) *)
Module NWCConverter.

Record t := mk {
  header : Header;
  staves : list NWCStaff.t;
  state : PState
}.

Section Converter.
Context {C : Constants}.

(** [zlib.decompress], supplied by the environment. *)
Variable decompress : bytes -> result bytes.

(** [not v] *)
Definition falsy (v : pyval) : bool :=
  match v with
  | PNone => true
  | PBool b => negb b
  | PStr s => bool_decide (s = "")
  | PBytes b => bool_decide (b = [])
  end.

(** [not self.groupVisibility or ord(self.groupVisibility) & 2**i] *)
Definition staffVisible (groupVisibility : pyval) (i : Z) : result bool :=
  if falsy groupVisibility then Ok true
  else
    let code :=
      match groupVisibility with
      | PBytes b => ord b
      | PStr s => ord (encode_ascii s)
      | _ => Raise TypeError
      end in
    match code with
    | Ok c => Ok (negb (Z.land c (2 ^ i) =? 0))
    | Raise e => Raise e
    | OutOfFuel => OutOfFuel
    end.

Definition isGunshot (v : pyval) : bool :=
  match v with
  | PStr "Gunshot" => true
  | _ => false
  end.

(** The [for i in range(self.numberOfStaves)] loop, from index [i]. *)
Fixpoint parseStaves (fuel : nat) (groupVisibility : pyval) (i : Z) (n : nat)
  : M (list NWCStaff.t) :=
  match n with
  | O => ret []
  | S n' =>
      let* visible := lift (staffVisible groupVisibility i) in
      if visible : bool
      then
        let* thisStaff := NWCStaff.parseStaff fuel in
        let* staves := parseStaves fuel groupVisibility (i + 1) n' in
        ret (if isGunshot (NWCStaff.instrumentName thisStaff)
             then staves else thisStaff :: staves)
      else parseStaves fuel groupVisibility (i + 1) n'
  end.

Definition parseBody (fuel : nat) : M (Header * list NWCStaff.t) :=
  let* p := get in
  put (set_pp p 0) ;;
  let* h := parseHeader in
  let* staves :=
    parseStaves fuel (groupVisibility h) 0 (Z.to_nat (numberOfStaves h)) in
  ret (h, staves).

(** The state of a freshly constructed converter holding [fc]. *)
Definition init (fc : bytes) : PState := mkPState fc 0 200 PNone.

Definition parseContent (fuel : nat) (fileContents : bytes) : result t :=
  let contents :=
    if bool_decide (slice fileContents 0 6 = (encode_ascii "[NWZ]" ++ [x00])%list)
    then decompress (slice_from fileContents 6)
    else Ok fileContents in
  match contents with
  | Ok fc =>
      match parseBody fuel (init fc) with
      | Ok ((h, staves), p) => Ok (mk h staves p)
      | Raise e => Raise e
      | OutOfFuel => OutOfFuel
      end
  | Raise e => Raise e
  | OutOfFuel => OutOfFuel
  end.

(** [v.decode('latin_1')] *)
Definition decode (v : pyval) : result string :=
  match v with
  | PBytes b => Ok (latin_1 b)
  | _ => Raise AttributeError
  end.

Fixpoint dumpStaves (staves : list NWCStaff.t) : result (list string) :=
  match staves with
  | [] => Ok []
  | s :: rest =>
      match NWCStaff.dump s ∅ with
      | Ok (staffDumpObjects, _) =>
          match dumpStaves rest with
          | Ok ds => Ok (staffDumpObjects ++ ds)%list
          | r => r
          end
      | Raise e => Raise e
      | OutOfFuel => OutOfFuel
      end
  end.

Definition dumpToNWCText (c : t) : result (list string) :=
  match decode (title (header c)) with
  | Ok ti =>
      match decode (author (header c)) with
      | Ok au =>
          let infos := "|SongInfo|Title:" +:+ ti +:+ "|Author:" +:+ au in
          match dumpStaves (staves c) with
          | Ok ds => Ok (infos :: ds)
          | r => r
          end
      | Raise e => Raise e
      | OutOfFuel => OutOfFuel
      end
  | Raise e => Raise e
  | OutOfFuel => OutOfFuel
  end.

End Converter.
End NWCConverter.

(** ** Sample reference tables, for the concrete documents below *)
Definition sample_constants : Constants := {|
  MidiInstruments := ["Acoustic Grand Piano"; "Bright Acoustic Piano"; "Gunshot"];
  ClefNames := ["Treble"; "Bass"; "Alto"; "Tenor"];
  OctaveShiftNames := [""; "Octave Up"; "Octave Down"];
  FlatMask := {[ 0x02 := "Bb" ]};
  SharpMask := {[ 0x20 := "F#" ]};
  styles := ["Single"; "Double"; "SectionOpen"; "SectionClose"]
|}.

(** ** Sample documents

    [docA] is a version 1.75 file with one staff holding a Clef, a Note, a
    Text and a Pedal record.  [docB] is the same file with the first
    signature overwritten. *)
Definition docA : bytes :=
  [x5b; x4e; x6f; x74; x65; x57; x6f; x72; x74; x68; x79; x20; x41; x72;
   x74; x57; x61; x72; x65; x5d; x00; x00; x00; x5b; x4e; x6f; x74; x65;
   x57; x6f; x72; x74; x68; x79; x20; x43; x6f; x6d; x70; x6f; x73; x65;
   x72; x5d; x00; x4b; x01; x01; x02; x03; x04; x75; x73; x72; x00; x00;
   x01; x01; x01; x01; x01; x01; x01; x01; x01; x01; x54; x00; x41; x00;
   x63; x31; x00; x63; x32; x00; x63; x6d; x00; x4e; x00; x30; x00; x00;
   x4e; x00; x00; x01; x00; x31; x20; x31; x20; x31; x20; x31; x00; x73;
   x00; x00; x00; x4e; x00; x10; x00; xff; xff; x46; x00; x00; x00; x00;
   x01; x46; x00; x00; x00; x00; x01; x46; x00; x00; x00; x00; x01; x46;
   x00; x00; x00; x00; x01; x46; x00; x00; x00; x00; x01; x46; x00; x00;
   x00; x00; x01; x46; x00; x00; x00; x00; x01; x46; x00; x00; x00; x00;
   x01; x46; x00; x00; x00; x00; x01; x46; x00; x00; x00; x00; x01; x46;
   x00; x00; x00; x00; x01; x46; x00; x00; x00; x00; x01; x00; x00; x01;
   x00; x01; x00; x53; x74; x61; x66; x66; x00; x53; x74; x64; x00; x00;
   x00; x00; x00; x00; x00; x00; x00; x00; x00; x00; x01; x00; x00; x00;
   x00; x00; x00; x00; x00; x00; x00; x00; x00; x00; x00; x00; x00; x00;
   x00; x00; x00; x00; x00; x00; x06; x00; x00; x00; x00; x00; x00; x00;
   x00; x08; x00; x00; x02; x00; x00; x00; x00; x00; x00; x05; x11; x00;
   x00; x00; x00; x00; x4c; x62; x6c; x00; x0b; x00; x00; x00; x00; x00].

Definition docB : bytes :=
  [x5b; x4e; x6f; x74; x41; x74; x41; x6c; x6c; x41; x6e; x4e; x57; x43;
   x46; x69; x6c; x65; x21; x5d; x00; x00; x00; x5b; x4e; x6f; x74; x65;
   x57; x6f; x72; x74; x68; x79; x20; x43; x6f; x6d; x70; x6f; x73; x65;
   x72; x5d; x00; x4b; x01; x01; x02; x03; x04; x75; x73; x72; x00; x00;
   x01; x01; x01; x01; x01; x01; x01; x01; x01; x01; x54; x00; x41; x00;
   x63; x31; x00; x63; x32; x00; x63; x6d; x00; x4e; x00; x30; x00; x00;
   x4e; x00; x00; x01; x00; x31; x20; x31; x20; x31; x20; x31; x00; x73;
   x00; x00; x00; x4e; x00; x10; x00; xff; xff; x46; x00; x00; x00; x00;
   x01; x46; x00; x00; x00; x00; x01; x46; x00; x00; x00; x00; x01; x46;
   x00; x00; x00; x00; x01; x46; x00; x00; x00; x00; x01; x46; x00; x00;
   x00; x00; x01; x46; x00; x00; x00; x00; x01; x46; x00; x00; x00; x00;
   x01; x46; x00; x00; x00; x00; x01; x46; x00; x00; x00; x00; x01; x46;
   x00; x00; x00; x00; x01; x46; x00; x00; x00; x00; x01; x00; x00; x01;
   x00; x01; x00; x53; x74; x61; x66; x66; x00; x53; x74; x64; x00; x00;
   x00; x00; x00; x00; x00; x00; x00; x00; x00; x00; x01; x00; x00; x00;
   x00; x00; x00; x00; x00; x00; x00; x00; x00; x00; x00; x00; x00; x00;
   x00; x00; x00; x00; x00; x00; x06; x00; x00; x00; x00; x00; x00; x00;
   x00; x08; x00; x00; x02; x00; x00; x00; x00; x00; x00; x05; x11; x00;
   x00; x00; x00; x00; x4c; x62; x6c; x00; x0b; x00; x00; x00; x00; x00].

(** The sample documents are not compressed. *)
Definition no_decompress (b : bytes) : result bytes := Raise ZlibError.

(** ** Reading the renderings

    Definitions that the statements below use to describe what the
    renderer does. *)

(** The spec's reading of the memory, one pitch class [c] at a time: what
    rendering [o] records for [c], given what was recorded before. *)
Definition record_step (c : Z) (recorded : string) (o : NWCObject.t) : string :=
  match o with
  | NWCObject.Barline _ _ _ => ""
  | NWCObject.Note _ _ _ _ pos _ _ _ _ _ _ alterationStr _ =>
      if bool_decide (pos `mod` 7 = c) then alterationStr else recorded
  | _ => recorded
  end.

(** The alteration last recorded for pitch class [c] since the most recent
    Barline of [history] (the objects rendered so far, oldest first), empty
    when there is none. *)
Definition last_recorded (history : list NWCObject.t) (c : Z) : string :=
  fold_left (record_step c) history "".

(** Whether the decoder of the record replaced [genericDumpMethod]: the
    records that render to a line. *)
Definition hasDump (o : NWCObject.t) : bool :=
  match o with
  | NWCObject.Clef _ _ _ _ _ | NWCObject.KeySig _ _ _ _
  | NWCObject.Barline _ _ _ | NWCObject.Ending _ _
  | NWCObject.TimeSignature _ _ _ _ _ | NWCObject.Tempo _ _ _ _ _ _
  | NWCObject.Note _ _ _ _ _ _ _ _ _ _ _ _ _ | NWCObject.Rest _ _ _ _ _ _ _
  | NWCObject.NoteChordMember _ _ _ _ => true
  | NWCObject.Text _ _ _ _ (Some _) => true
  | _ => false
  end.

Definition piped (line : string) : Prop := exists rest, line = String "|" rest.

(** What one staff contributes: the AddStaff line, the StaffInstrument
    line, then the renderings of its records that have one. *)
Definition staff_block {C : Constants} (s : NWCStaff.t) (block : list string) : Prop :=
  exists lab instr idx objlines,
    block = ("|AddStaff|Name:" +:+ lab)
            :: ("|StaffInstrument" +:+ ("|Name:" +:+ instr)
                +:+ ("|Patch:" +:+ str idx)
                +:+ ("|Trans:" +:+ NWCStaff.str_opt (NWCStaff.transposition s)))
            :: objlines
    /\ NWCStaff.instrumentName s = PStr instr
    /\ Forall2 (fun o d => exists m1 m2,
                  NWCObject.dumpMethod (NWCStaff.instrumentName s) o m1 = Ok (d, m2))
         (List.filter hasDump (NWCStaff.objects s)) objlines
    /\ Forall piped block.

(** The value of [self.type] that each entry of [objMethods] assigns, in
    the order of the table. *)
Definition objTypes : list string :=
  [ "Clef"; "KeySig"; "Barline"; "Ending"; "Instrument"; "TimeSignature";
    "Tempo"; "Dynamic"; "Note"; "Rest"; "NoteChordMember"; "Pedal";
    "FlowDir"; "MPC"; "TempoVariation"; "DynamicVariation"; "Performance";
    "Text"; "RestChordMember" ].


(** The buffer and the version are the same in both states, and so is the
    staff label unless [changed] allows it to be set. *)
Definition frame (changed : bool) (p q : PState) : Prop :=
  fileContents q = fileContents p
  /\ version q = version p
  /\ (staffLabel q = staffLabel p
      \/ (changed = true /\ staffLabel p = PNone
          /\ exists s, staffLabel q = PStr s)).

(** Whether the record being decoded belongs to the staff itself. *)
Definition ofStaff (parent : NWCObject.Parent) : bool :=
  match parent with
  | NWCObject.StaffParent => true
  | NWCObject.ObjectParent => false
  end.

(** * Properties *)

(** ** Slices and searches *)

Lemma slice_nonneg {A} (s : list A) (lo hi : Z) :
  0 <= lo <= hi ->
  slice s lo hi = take (Z.to_nat (hi - lo)) (drop (Z.to_nat lo) s).
Proof.
  intros H. unfold slice, adjust.
  destruct (Z.ltb_spec lo 0), (Z.ltb_spec hi 0); try lia.
  destruct (Z.le_gt_cases hi (Z.of_nat (length s))).
  - rewrite !Z.min_l by lia. reflexivity.
  - destruct (Z.le_gt_cases lo (Z.of_nat (length s))).
    + rewrite (Z.min_l lo), (Z.min_r hi) by lia.
      rewrite !take_ge; [reflexivity | |]; rewrite length_drop; lia.
    + rewrite !Z.min_r by lia.
      rewrite !drop_ge by lia. rewrite !take_nil. reflexivity.
Qed.

Lemma slice_past_end {A} (s : list A) (lo hi : Z) :
  len s <= lo -> lo <= hi -> slice s lo hi = [].
Proof.
  intros H1 H2. unfold len in H1. rewrite slice_nonneg by lia.
  rewrite drop_ge by lia. apply take_nil.
Qed.

Lemma slice_from_past_end {A} (s : list A) (lo : Z) :
  len s <= lo -> slice_from s lo = [].
Proof.
  intros H. unfold len in H. unfold slice_from, adjust.
  destruct (Z.ltb_spec lo 0); [lia |].
  apply drop_ge. lia.
Qed.

Lemma find_from_bounds (l : bytes) (i j : Z) :
  find_from l i = Some j -> i <= j < i + len l.
Proof.
  unfold len. revert i. induction l as [| b t IH]; intros i; simpl.
  - discriminate.
  - destruct (Byte.eqb b x00).
    + intros [= <-]. lia.
    + intros H. apply IH in H. lia.
Qed.

Lemma index0_bounds (fc : bytes) (start j : Z) :
  index0 fc start = Some j -> start <= j /\ 0 <= j < len fc.
Proof.
  unfold index0, adjust, len. intros H.
  destruct (Z.ltb_spec start 0).
  - apply find_from_bounds in H. unfold len in H.
    rewrite length_drop in H. lia.
  - destruct (Z.le_gt_cases start (Z.of_nat (length fc))).
    + rewrite Z.min_l in H by lia.
      apply find_from_bounds in H. unfold len in H.
      rewrite length_drop in H. lia.
    + rewrite Z.min_r in H by lia.
      rewrite drop_ge in H by lia. discriminate.
Qed.

Lemma index0_past_end (fc : bytes) (start : Z) :
  len fc <= start -> index0 fc start = None.
Proof.
  intros H. destruct (index0 fc start) as [j |] eqn:E; [| reflexivity].
  apply index0_bounds in E. lia.
Qed.

Lemma b2z_range (b : byte) : 0 <= b2z b < 256.
Proof.
  unfold b2z. pose proof (Byte.to_N_bounded b). lia.
Qed.

(** Four bytes at the cursor: the shape of the slices that two successive
    16-bit reads see. *)
Lemma slice_four (fc : bytes) (pp : Z) :
  0 <= pp -> pp + 4 <= len fc ->
  exists b0 b1 b2 b3,
    slice fc pp (pp + 4) = [b0; b1; b2; b3]
    /\ slice fc pp (pp + 2) = [b0; b1]
    /\ slice fc (pp + 2) (pp + 2 + 2) = [b2; b3].
Proof.
  intros H0 H4. unfold len in H4.
  rewrite !slice_nonneg by lia.
  replace (Z.to_nat (pp + 2)) with (Z.to_nat pp + 2)%nat by lia.
  rewrite <- drop_drop.
  replace (Z.to_nat (pp + 4 - pp)) with 4%nat by lia.
  replace (Z.to_nat (pp + 2 - pp)) with 2%nat by lia.
  replace (Z.to_nat (pp + 2 + 2 - (pp + 2))) with 2%nat by lia.
  assert (L : (4 <= length (drop (Z.to_nat pp) fc))%nat)
    by (rewrite length_drop; lia).
  destruct (drop (Z.to_nat pp) fc) as [| b0 [| b1 [| b2 [| b3 r]]]];
    simpl in L; try lia.
  exists b0, b1, b2, b3. repeat split; reflexivity.
Qed.

Lemma unpack_h_value (lo hi : byte) :
  exists v, unpack_h [lo; hi] = Ok v
            /\ -32768 <= v < 32768
            /\ v `mod` 65536 = b2z lo + 256 * b2z hi.
Proof.
  pose proof (b2z_range lo). pose proof (b2z_range hi).
  unfold unpack_h. eexists. split; [reflexivity |].
  destruct (Z.leb_spec 32768 (b2z lo + 256 * b2z hi)).
  - split; [lia |].
    replace (b2z lo + 256 * b2z hi - 65536)
      with (b2z lo + 256 * b2z hi + (-1) * 65536) by lia.
    rewrite Z.mod_add by lia. apply Z.mod_small. lia.
  - split; [lia |]. apply Z.mod_small. lia.
Qed.

(** ** Primitive reads *)

(** C9: with at least four bytes at the cursor, two successive
    little-endian 16-bit reads both succeed, each advances the cursor by
    exactly 2, and each returns the signed 16-bit integer that its two
    bytes encode (low byte first). *)
Theorem readLEShort_twice (p : PState) :
  0 <= parsePosition p ->
  parsePosition p + 4 <= len (fileContents p) ->
  exists b0 b1 b2 b3 v1 v2,
    slice (fileContents p) (parsePosition p) (parsePosition p + 4)
      = [b0; b1; b2; b3]
    /\ readLEShort true p = Ok (v1, set_pp p (parsePosition p + 2))
    /\ readLEShort true (set_pp p (parsePosition p + 2))
       = Ok (v2, set_pp p (parsePosition p + 4))
    /\ (-32768 <= v1 < 32768 /\ v1 `mod` 65536 = b2z b0 + 256 * b2z b1)
    /\ (-32768 <= v2 < 32768 /\ v2 `mod` 65536 = b2z b2 + 256 * b2z b3).
Proof.
  intros H0 H4.
  destruct (slice_four _ _ H0 H4) as (b0 & b1 & b2 & b3 & E4 & E2 & E2').
  destruct (unpack_h_value b0 b1) as (v1 & U1 & R1 & M1).
  destruct (unpack_h_value b2 b3) as (v2 & U2 & R2 & M2).
  exists b0, b1, b2, b3, v1, v2.
  split; [exact E4 |].
  split; [unfold readLEShort; rewrite E2, U1; reflexivity |].
  split.
  - unfold readLEShort. cbn [fileContents parsePosition set_pp].
    rewrite E2', U2. unfold set_pp; cbn.
    replace (parsePosition p + 2 + 2) with (parsePosition p + 4) by lia.
    reflexivity.
  - split; split; assumption.
Qed.

(** The doctest of [readLEShort]: bytes 02 01 03 01 read as 258 then 259,
    leaving the cursor at 4. *)
Lemma readLEShort_twice_witness :
  let p := mkPState [x02; x01; x03; x01] 0 200 PNone in
  (readLEShort true p = Ok (258, set_pp p 2)
   /\ readLEShort true (set_pp p 2) = Ok (259, set_pp p 4))
  /\ exists b0 b1 b2 b3 v1 v2,
       slice (fileContents p) (parsePosition p) (parsePosition p + 4)
         = [b0; b1; b2; b3]
       /\ readLEShort true p = Ok (v1, set_pp p (parsePosition p + 2))
       /\ readLEShort true (set_pp p (parsePosition p + 2))
          = Ok (v2, set_pp p (parsePosition p + 4))
       /\ (-32768 <= v1 < 32768 /\ v1 `mod` 65536 = b2z b0 + 256 * b2z b1)
       /\ (-32768 <= v2 < 32768 /\ v2 `mod` 65536 = b2z b2 + 256 * b2z b3).
Proof.
  split; [split; reflexivity |].
  apply (readLEShort_twice (mkPState [x02; x01; x03; x01] 0 200 PNone));
    unfold len; simpl; lia.
Defined.

(** C2 (as stated, refuted): with the cursor at the end of a one-byte
    buffer the 16-bit read raises [struct.error] and the byte read raises
    [TypeError]. *)
Lemma reads_past_end_raise :
  let p := mkPState [x01] 1 200 PNone in
  readLEShort true p = Raise StructError
  /\ byteToInt true p = Raise TypeError.
Proof. split; reflexivity. Qed.

(** C2 (amended): with the cursor at or past the end of the buffer,
    [readBytes] (of a non-negative count) and [readToNUL] return the empty
    byte string and do not raise, whereas [readLEShort] raises
    [struct.error] and [byteToInt] raises [TypeError]. *)
Theorem reads_past_end (p : PState) (u : bool) (n : Z) :
  len (fileContents p) <= parsePosition p ->
  0 <= n ->
  readLEShort u p = Raise StructError
  /\ byteToInt u p = Raise TypeError
  /\ (exists p', readBytes n u p = Ok ([], p'))
  /\ (exists p', readToNUL u p = Ok ([], p')).
Proof.
  intros Hend Hn. repeat split.
  - unfold readLEShort. rewrite slice_past_end by lia. reflexivity.
  - unfold byteToInt. rewrite slice_past_end by lia. reflexivity.
  - unfold readBytes. rewrite slice_past_end by lia. eauto.
  - unfold readToNUL. rewrite index0_past_end by lia.
    cbn. rewrite slice_from_past_end by lia. eauto.
Qed.

Lemma reads_past_end_witness :
  let p := mkPState [x01; x02] 2 200 PNone in
  readLEShort true p = Raise StructError
  /\ byteToInt true p = Raise TypeError
  /\ (exists p', readBytes 3 true p = Ok ([], p'))
  /\ (exists p', readToNUL true p = Ok ([], p')).
Proof.
  apply (reads_past_end (mkPState [x01; x02] 2 200 PNone) true 3);
    unfold len; simpl; lia.
Defined.

(** ** The monad, step by step *)

Lemma bind_Ok {A B} (m : M A) (k : A -> M B) (p : PState) (r : B * PState) :
  bind m k p = Ok r ->
  exists a p1, m p = Ok (a, p1) /\ k a p1 = Ok r.
Proof.
  unfold bind. destruct (m p) as [[a p1] | e |]; try discriminate.
  eauto.
Qed.

Lemma readLEShort_Ok (p p' : PState) (v : Z) :
  readLEShort true p = Ok (v, p') -> p' = set_pp p (parsePosition p + 2).
Proof.
  unfold readLEShort.
  destruct (unpack_h _); intros [=]; subst. reflexivity.
Qed.

Lemma byteToInt_Ok (p p' : PState) (v : Z) :
  byteToInt true p = Ok (v, p') ->
  p' = set_pp p (parsePosition p + 1) /\ 0 <= v < 256.
Proof.
  unfold byteToInt, ord.
  destruct (slice _ _ _) as [| b [| ? ?]]; intros [=]; subst.
  split; [reflexivity | apply b2z_range].
Qed.

Lemma readToNUL_contents (u : bool) (p p' : PState) (r : bytes) :
  readToNUL u p = Ok (r, p') -> fileContents p' = fileContents p.
Proof.
  cbv beta zeta delta [readToNUL]. intros [=]; subst.
  destruct u; reflexivity.
Qed.

Lemma readLEShort_enough (p : PState) :
  0 <= parsePosition p ->
  parsePosition p + 2 <= len (fileContents p) ->
  exists v, readLEShort true p = Ok (v, set_pp p (parsePosition p + 2)).
Proof.
  intros H0 H2. unfold len in H2. unfold readLEShort.
  rewrite slice_nonneg by lia.
  replace (Z.to_nat (parsePosition p + 2 - parsePosition p)) with 2%nat by lia.
  assert (L : (2 <= length (drop (Z.to_nat (parsePosition p)) (fileContents p)))%nat)
    by (rewrite length_drop; lia).
  destruct (drop _ _) as [| b0 [| b1 r]]; simpl in L; try lia.
  simpl. eauto.
Qed.

Lemma readLEShort_fuel (u : bool) (p : PState) : readLEShort u p <> OutOfFuel.
Proof.
  unfold readLEShort, unpack_h.
  destruct (slice _ _ _) as [| b0 [| b1 [| b2 r]]]; discriminate.
Qed.

(** ** Lyric blocks *)

Lemma scanSyllables_total (maxRead : nat) (p : PState) :
  exists syllables p',
    NWCStaff.scanSyllables maxRead p = Ok (syllables, p')
    /\ fileContents p' = fileContents p
    /\ version p' = version p
    /\ staffLabel p' = staffLabel p.
Proof.
  revert p. induction maxRead as [| m IH]; intros p; simpl.
  - exists [], p. repeat split.
  - unfold bind at 1.
    destruct (readToNUL true p) as [[syllable p1] | e |] eqn:E;
      try (unfold readToNUL in E; discriminate).
    assert (fileContents p1 = fileContents p /\ version p1 = version p
            /\ staffLabel p1 = staffLabel p) as (F1 & V1 & L1)
      by (cbv beta zeta delta [readToNUL] in E; injection E as _ <-;
          repeat split).
    destruct (bool_decide (syllable = [])).
    + exists [], p1. repeat split; assumption.
    + destruct (IH p1) as (l & p2 & E2 & F2 & V2 & L2).
      unfold bind, ret. rewrite E2.
      exists (syllable :: l), p2. repeat split; congruence.
Qed.

(** C4: a lyric slot whose declared size is positive leaves the cursor at
    exactly [blockStart + size], where [blockStart] is the position after
    the inner size field, whatever the syllable scan consumed; the next
    slot is decoded from there.  The block decoder returns as soon as the
    inner size field and the short after it are in the buffer; it can only
    fail on those two reads. *)
Theorem lyric_block_cursor (p p1 : PState) (size : Z) :
  NWCStaff.readBlockSize p = Ok (size, p1) ->
  0 < size ->
  let blockStart := parsePosition p1 + 2 in
  (forall syllables p2,
     NWCStaff.parseLyricBlock size p1 = Ok (syllables, p2) ->
     parsePosition p2 = blockStart + size
     /\ forall n,
          NWCStaff.lyricSlots (S n) p
          = (let* lyrics := NWCStaff.lyricSlots n in
             ret (syllables :: lyrics)) p2)
  /\ NWCStaff.parseLyricBlock size p1 <> OutOfFuel
  /\ (0 <= parsePosition p1 ->
      parsePosition p1 + 4 <= len (fileContents p1) ->
      exists syllables p2,
        NWCStaff.parseLyricBlock size p1 = Ok (syllables, p2)
        /\ parsePosition p2 = blockStart + size).
Proof.
  intros Hsize HS blockStart. subst blockStart.
  assert (Hpost : forall syllables p2,
            NWCStaff.parseLyricBlock size p1 = Ok (syllables, p2) ->
            parsePosition p2 = parsePosition p1 + 2 + size).
  { intros syllables p2 H. unfold NWCStaff.parseLyricBlock in H.
    apply bind_Ok in H as (v1 & q1 & E1 & H).
    apply readLEShort_Ok in E1. subst q1.
    apply bind_Ok in H as (start & q2 & E2 & H).
    unfold NWCStaff.getPosition in E2. injection E2 as <- <-.
    apply bind_Ok in H as (v2 & q3 & _ & H).
    apply bind_Ok in H as (syl & q4 & _ & H).
    apply bind_Ok in H as ([] & q5 & E5 & H).
    unfold NWCStaff.setPosition in E5. injection E5 as <-.
    unfold ret in H. injection H as _ <-. reflexivity. }
  split; [| split].
  - intros syllables p2 H. split; [exact (Hpost _ _ H) |].
    intros n. cbn [NWCStaff.lyricSlots]. unfold bind at 1. rewrite Hsize.
    destruct (Z.ltb_spec 0 size); [| lia].
    unfold bind at 1. rewrite H. reflexivity.
  - unfold NWCStaff.parseLyricBlock, bind.
    destruct (readLEShort true p1) as [[v1 q1] | e |] eqn:E1; try discriminate.
    + unfold NWCStaff.getPosition.
      destruct (readLEShort true q1) as [[v2 q2] | e |] eqn:E2; try discriminate.
      * destruct (scanSyllables_total 1000 q2) as (l & q3 & E3 & _).
        rewrite E3. discriminate.
      * destruct (readLEShort_fuel _ _ E2).
    + destruct (readLEShort_fuel _ _ E1).
  - intros H0 H4.
    destruct (readLEShort_enough p1 H0 ltac:(lia)) as (v1 & E1).
    destruct (readLEShort_enough (set_pp p1 (parsePosition p1 + 2)))
      as (v2 & E2); [cbn; lia | cbn; lia |].
    destruct (scanSyllables_total 1000
                (set_pp (set_pp p1 (parsePosition p1 + 2))
                   (parsePosition (set_pp p1 (parsePosition p1 + 2)) + 2)))
      as (l & q3 & E3 & _).
    exists l. eexists. split.
    + unfold NWCStaff.parseLyricBlock, bind. rewrite E1.
      unfold NWCStaff.getPosition. rewrite E2, E3.
      unfold NWCStaff.setPosition, ret. reflexivity.
    + reflexivity.
Qed.

(** A block declared as 3 bytes whose syllables run to offset 15: the
    cursor ends at [blockStart + 3 = 7]. *)
Lemma lyric_block_cursor_witness :
  let p := mkPState [x03; x00; x09; x00; x00; x00; x6c; x61; x00; x6c;
                     x61; x00; x01; x00; x00; x07] 0 175 PNone in
  let p1 := set_pp p 2 in
  NWCStaff.readBlockSize p = Ok (3, p1)
  /\ (forall syllables p2,
        NWCStaff.parseLyricBlock 3 p1 = Ok (syllables, p2) ->
        parsePosition p2 = 4 + 3
        /\ forall n,
             NWCStaff.lyricSlots (S n) p
             = (let* lyrics := NWCStaff.lyricSlots n in
                ret (syllables :: lyrics)) p2)
  /\ NWCStaff.parseLyricBlock 3 p1 <> OutOfFuel
  /\ (exists syllables p2,
        NWCStaff.parseLyricBlock 3 p1 = Ok (syllables, p2)
        /\ parsePosition p2 = 4 + 3).
Proof.
  intros p p1.
  assert (E : NWCStaff.readBlockSize p = Ok (3, p1)) by reflexivity.
  split; [exact E |].
  destruct (lyric_block_cursor p p1 3 E ltac:(lia)) as (H1 & H2 & H3).
  split; [exact H1 |]. split; [exact H2 |].
  apply H3; unfold len; simpl; lia.
Defined.

(** ** The cursor *)

(** The loop of [advanceToNotNUL] ends on its own: the budget it is given
    is never the reason for stopping. *)
Lemma advance_loop_stops (fc : bytes) (pp : Z) :
  let pp' := advance_loop (S (length fc)) fc pp in
  slice fc pp' (pp' + 1) <> [x00].
Proof.
  set (n := Z.of_nat (length fc)).
  set (mu := fun q : Z => if q <? 0 then -1 - q else n - q).
  assert (A : forall q, slice fc q (q + 1) <> [] ->
                        1 <= mu q <= n /\ mu (q + 1) = mu q - 1).
  { intros q Hq.
    assert (adjust n q < adjust n (q + 1)).
    { destruct (Z.lt_ge_cases (adjust n q) (adjust n (q + 1))); [assumption |].
      exfalso. apply Hq. unfold slice. fold n.
      replace (Z.to_nat (adjust n (q + 1) - adjust n q)) with 0%nat by lia.
      apply take_0. }
    assert (0 <= n) by (subst n; lia).
    unfold adjust, mu in *. cbv beta in *.
    destruct (Z.ltb_spec q 0), (Z.ltb_spec (q + 1) 0); lia. }
  assert (B : forall fuel q,
            (slice fc q (q + 1) <> [] -> mu q <= Z.of_nat fuel) ->
            slice fc (advance_loop fuel fc q) (advance_loop fuel fc q + 1)
            <> [x00]).
  { induction fuel as [| f IH]; intros q Hq; simpl.
    - intros E. assert (slice fc q (q + 1) <> []) as Hne by (rewrite E; discriminate).
      specialize (Hq Hne). apply A in Hne. lia.
    - destruct (bool_decide (slice fc q (q + 1) = [x00])) eqn:D.
      + apply bool_decide_eq_true in D. apply IH. intros Hne.
        assert (slice fc q (q + 1) <> []) as Hne0 by (rewrite D; discriminate).
        specialize (Hq Hne0). apply A in Hne0. lia.
      + apply bool_decide_eq_false in D. exact D. }
  intros pp'. subst pp'. apply B. intros Hne. apply A in Hne. lia.
Qed.

(** C5 (as stated, refuted): [readToNUL] on a buffer with no zero byte
    left moves the cursor from 1 back to 0; and the seek that ends a lyric
    block declared as 1 byte moves the cursor from 7, where the syllable
    scan stopped, back to 3. *)
Lemma cursor_moves_back :
  (exists r p',
     readToNUL true (mkPState [x01; x02; x03] 1 200 PNone) = Ok (r, p')
     /\ parsePosition p' < 1)
  /\ (let p := mkPState [x00; x00; x00; x00; x61; x00; x00] 0 200 PNone in
      exists s1 p1 s2 p2,
        (readLEShort true ;; readLEShort true ;; NWCStaff.scanSyllables 1000) p
        = Ok (s1, p1)
        /\ NWCStaff.parseLyricBlock 1 p = Ok (s2, p2)
        /\ parsePosition p1 = 7
        /\ parsePosition p2 = 3).
Proof.
  split.
  - exists [x02; x03], (mkPState [x01; x02; x03] 0 200 PNone).
    split; [vm_compute; reflexivity | simpl; lia].
  - cbv zeta.
    exists [encode_ascii "a"],
           (mkPState [x00; x00; x00; x00; x61; x00; x00] 7 200 PNone),
           [encode_ascii "a"],
           (mkPState [x00; x00; x00; x00; x61; x00; x00] 3 200 PNone).
    repeat split; vm_compute; reflexivity.
Qed.

(** C5 (amended): [readLEShort], [byteToInt], [byteToSignedInt],
    [readBytes] and [skipBytes] (of a non-negative count) never move the
    cursor back; [readToNUL] moves it just past the zero byte it finds at
    or after the cursor; and the seek that ends a lyric block of positive
    declared size puts the cursor beyond the start of the block. *)
Theorem cursor_monotone (p : PState) (n : Z) :
  0 <= n ->
  (forall v p', readLEShort true p = Ok (v, p') ->
                parsePosition p' = parsePosition p + 2)
  /\ (forall v p', byteToInt true p = Ok (v, p') ->
                   parsePosition p' = parsePosition p + 1)
  /\ (forall v p', byteToSignedInt true p = Ok (v, p') ->
                   parsePosition p' = parsePosition p + 1)
  /\ (forall v p', readBytes n true p = Ok (v, p') ->
                   parsePosition p <= parsePosition p')
  /\ (forall p', skipBytes n p = Ok (tt, p') ->
                 parsePosition p <= parsePosition p')
  /\ (forall i, index0 (fileContents p) (parsePosition p) = Some i ->
                exists p', readToNUL true p
                           = Ok (slice (fileContents p) (parsePosition p) i, p')
                           /\ parsePosition p' = i + 1
                           /\ parsePosition p < parsePosition p')
  /\ (forall size syllables p',
        0 < size ->
        NWCStaff.parseLyricBlock size p = Ok (syllables, p') ->
        parsePosition p + 2 < parsePosition p').
Proof.
  intros Hn. repeat split.
  - intros v p' H. apply readLEShort_Ok in H. subst. reflexivity.
  - intros v p' H. apply byteToInt_Ok in H as [-> _]. reflexivity.
  - intros v p' H. unfold byteToSignedInt in H.
    apply bind_Ok in H as (a & q & E & H).
    apply byteToInt_Ok in E as [-> _].
    unfold ret in H. injection H as _ <-. reflexivity.
  - intros v p' H. unfold readBytes in H. injection H as _ <-. cbn. lia.
  - intros p' H. unfold skipBytes in H. injection H as <-. cbn. lia.
  - intros i Hi. pose proof (index0_bounds _ _ _ Hi) as [? ?].
    cbv beta zeta delta [readToNUL]. rewrite Hi.
    destruct (Z.eqb_spec i (-1)); [lia |].
    eexists. split; [reflexivity |]. cbn. lia.
  - intros size syllables p' Hs H.
    unfold NWCStaff.parseLyricBlock in H.
    apply bind_Ok in H as (v1 & q1 & E1 & H).
    apply readLEShort_Ok in E1. subst q1.
    apply bind_Ok in H as (start & q2 & E2 & H).
    unfold NWCStaff.getPosition in E2. injection E2 as <- <-.
    apply bind_Ok in H as (v2 & q3 & _ & H).
    apply bind_Ok in H as (syl & q4 & _ & H).
    apply bind_Ok in H as ([] & q5 & E5 & H).
    unfold NWCStaff.setPosition in E5. injection E5 as <-.
    unfold ret in H. injection H as _ <-. cbn. lia.
Qed.

Lemma cursor_monotone_witness :
  let p := mkPState [x02; x01; x41; x00; x03; x01] 0 200 PNone in
  (forall v p', readLEShort true p = Ok (v, p') -> parsePosition p' = 0 + 2)
  /\ (forall p', skipBytes 4 p = Ok (tt, p') -> 0 <= parsePosition p')
  /\ (exists p', readToNUL true p = Ok ([x02; x01; x41], p')
                 /\ parsePosition p' = 4).
Proof.
  intros p.
  destruct (cursor_monotone p 4 ltac:(lia)) as (H1 & _ & _ & _ & H5 & H6 & _).
  split; [exact H1 |]. split; [exact H5 |].
  destruct (H6 3 eq_refl) as (p' & E & P & _).
  exists p'. split; [exact E | exact P].
Defined.

(** ** Alteration memory *)

Section Rendering.
Context {C : Constants}.

Lemma dumpMethod_memory (instr : pyval) (o : NWCObject.t)
    (m m' : gmap Z string) (d : string) (c : Z) :
  NWCObject.dumpMethod instr o m = Ok (d, m') ->
  default "" (m' !! c) = record_step c (default "" (m !! c)) o.
Proof.
  destruct o; cbn [NWCObject.dumpMethod record_step];
    try (intros [= _ <-]; reflexivity).
  - (* Barline *)
    destruct (_ && _).
    + destruct (getitem _ _); intros [= _ <-]; rewrite lookup_empty;
        reflexivity.
    + intros [= _ <-]. rewrite lookup_empty. reflexivity.
  - (* Note *)
    intros [= _ <-]. rewrite lookup_insert.
    destruct (decide (pos `mod` 7 = c)) as [E | E].
    + rewrite bool_decide_eq_true_2 by exact E. reflexivity.
    + rewrite bool_decide_eq_false_2 by exact E. reflexivity.
  - (* NoteChordMember *)
    destruct (NWCObject.chord_build _ _); intros [= _ <-]; reflexivity.
  - (* Text *)
    destruct text; intros [= _ <-]; reflexivity.
Qed.

Lemma dumpObjects_memory (instr : pyval) (history : list NWCObject.t) :
  forall (m m' : gmap Z string) (lines : list string) (c : Z),
    NWCStaff.dumpObjects instr history m = Ok (lines, m') ->
    default "" (m' !! c) = fold_left (record_step c) history (default "" (m !! c)).
Proof.
  induction history as [| o rest IH]; intros m m' lines c; simpl.
  - intros [= _ <-]. reflexivity.
  - destruct (NWCObject.dumpMethod instr o m) as [[d m1] | e |] eqn:E;
      try discriminate.
    destruct (NWCStaff.dumpObjects instr rest m1) as [[ds m2] | e |] eqn:E2;
      try discriminate.
    intros [= _ <-].
    rewrite (IH _ _ _ c E2).
    rewrite (dumpMethod_memory _ _ _ _ _ c E). reflexivity.
Qed.

(** C3: after rendering the objects [history] of a staff, the memory holds
    for every pitch class the alteration last recorded since the most
    recent Barline.  A Note whose own alteration is empty renders with that
    alteration for its pitch class ([pos mod 7]); rendering any Note
    overwrites the entry of its pitch class with the Note's own alteration;
    rendering a Barline empties the memory, and an unmarked Note rendered
    on the empty memory carries no alteration. *)
Theorem alteration_memory (instr : pyval) (history : list NWCObject.t)
    (lines : list string) (mem : gmap Z string) :
  NWCStaff.dumpObjects instr history ∅ = Ok (lines, mem) ->
  (forall c, default "" (mem !! c) = last_recorded history c)
  /\ (forall visible duration data2 attribute1 pos attribute2 data3
             stemLength dotAttribute dots durationStr tieInfo,
        NWCObject.dumpMethod instr
          (NWCObject.Note visible duration data2 attribute1 pos attribute2
             data3 stemLength dotAttribute dots durationStr "" tieInfo) mem
        = Ok (("|Note|Dur:" +:+ durationStr +:+ "|")
              +:+ ("Pos:" +:+ last_recorded history (pos `mod` 7)
                   +:+ str pos +:+ tieInfo +:+ "|"),
              <[pos `mod` 7 := ""]> mem))
  /\ (forall visible duration data2 attribute1 pos attribute2 data3
             stemLength dotAttribute dots durationStr alterationStr tieInfo,
        exists line,
          NWCObject.dumpMethod instr
            (NWCObject.Note visible duration data2 attribute1 pos attribute2
               data3 stemLength dotAttribute dots durationStr alterationStr
               tieInfo) mem
          = Ok (line, <[pos `mod` 7 := alterationStr]> mem))
  /\ (forall visible style localRepeatCount,
        exists line,
          NWCObject.dumpMethod instr
            (NWCObject.Barline visible style localRepeatCount) mem
          = Ok (line, ∅))
  /\ (forall visible duration data2 attribute1 pos attribute2 data3
             stemLength dotAttribute dots durationStr tieInfo,
        NWCObject.dumpMethod instr
          (NWCObject.Note visible duration data2 attribute1 pos attribute2
             data3 stemLength dotAttribute dots durationStr "" tieInfo) ∅
        = Ok (("|Note|Dur:" +:+ durationStr +:+ "|")
              +:+ ("Pos:" +:+ "" +:+ str pos +:+ tieInfo +:+ "|"),
              <[pos `mod` 7 := ""]> ∅)).
Proof.
  intros H.
  assert (Hmem : forall c, default "" (mem !! c) = last_recorded history c).
  { intros c. unfold last_recorded.
    rewrite (dumpObjects_memory _ _ _ _ _ c H), lookup_empty. reflexivity. }
  split; [exact Hmem |]. split; [| split; [| split]].
  - intros. cbn [NWCObject.dumpMethod].
    rewrite bool_decide_eq_true_2 by reflexivity.
    rewrite <- Hmem. destruct (mem !! (pos `mod` 7)); reflexivity.
  - intros. eexists. cbn [NWCObject.dumpMethod]. reflexivity.
  - intros. cbn [NWCObject.dumpMethod].
    destruct (_ && _) eqn:G; [| eauto].
    apply andb_prop in G as [G1 G2].
    apply Z.ltb_lt in G1. apply Z.ltb_lt in G2. unfold len in G2.
    unfold getitem.
    destruct (Z.ltb_spec style 0); [lia |].
    destruct (Z.ltb_spec style 0); [lia |].
    destruct (Z.leb_spec (Z.of_nat (length styles)) style); [lia |].
    cbn [orb].
    destruct (styles !! Z.to_nat style) eqn:L; [eauto |].
    apply lookup_ge_None in L. lia.
  - intros. cbn [NWCObject.dumpMethod].
    rewrite bool_decide_eq_true_2 by reflexivity.
    rewrite lookup_empty. reflexivity.
Qed.

End Rendering.

(** ** The emitted lines *)

Section Lines.
Context {C : Constants}.

Lemma dumpMethod_line (instr : pyval) (o : NWCObject.t)
    (m m' : gmap Z string) (d : string) :
  NWCObject.dumpMethod instr o m = Ok (d, m') ->
  if hasDump o then piped d /\ d <> "" else d = "".
Proof.
  unfold piped.
  destruct o; cbn [NWCObject.dumpMethod hasDump];
    try (intros [= <- _]; first [reflexivity | split; [eexists; reflexivity | discriminate]]).
  - (* Clef *)
    destruct (NWCObject.truthy _), (NWCObject.truthy _);
      intros [= <- _]; (split; [eexists; reflexivity | discriminate]).
  - (* Barline *)
    destruct (_ && _); [destruct (getitem _ _) |];
      intros [= <- _]; (split; [eexists; reflexivity | discriminate]).
  - (* NoteChordMember *)
    assert (G : forall notes b r, NWCObject.chord_build (String "|" b) notes = Ok r ->
                              exists rest, r = String "|" rest).
    { induction notes as [| [[k |] vs] notes IH]; simpl; intros b r H.
      - injection H as <-. eauto.
      - apply IH in H. exact H.
      - discriminate. }
    destruct (NWCObject.chord_build _ _) as [r | e |] eqn:E; intros [= <- _].
    apply G in E as [rest ->]. split; [eauto | discriminate].
  - (* Text *)
    destruct text; intros [= <- _];
      [split; [eexists; reflexivity | discriminate] | reflexivity].
Qed.

Lemma dumpObjects_lines (instr : pyval) (objects : list NWCObject.t) :
  forall (m m' : gmap Z string) (ds : list string),
    NWCStaff.dumpObjects instr objects m = Ok (ds, m') ->
    Forall2 (fun o d => exists m1 m2, NWCObject.dumpMethod instr o m1 = Ok (d, m2))
      (List.filter hasDump objects) ds
    /\ Forall piped ds.
Proof.
  induction objects as [| o rest IH]; intros m m' ds; simpl.
  - intros [= <- _]. split; constructor.
  - destruct (NWCObject.dumpMethod instr o m) as [[d m1] | e |] eqn:E;
      try discriminate.
    destruct (NWCStaff.dumpObjects instr rest m1) as [[ds' m2] | e |] eqn:E2;
      try discriminate.
    intros [= <- _].
    destruct (IH _ _ _ E2) as [F P].
    pose proof (dumpMethod_line _ _ _ _ _ E) as L.
    destruct (hasDump o).
    + destruct L as [Lp Ln].
      rewrite bool_decide_eq_false_2 by exact Ln.
      split; constructor; eauto.
    + subst d. rewrite bool_decide_eq_true_2 by reflexivity.
      split; assumption.
Qed.

Lemma dump_block (s : NWCStaff.t) (m m' : gmap Z string) (block : list string) :
  NWCStaff.dump s m = Ok (block, m') -> staff_block s block.
Proof.
  unfold NWCStaff.dump, staff_block.
  destruct (NWCStaff.concat_str "|AddStaff|Name:" _) as [addStaff | |] eqn:E1;
    try discriminate.
  destruct (NWCStaff.concat_str "|Name:" _) as [instru | |] eqn:E2;
    try discriminate.
  destruct (NWCStaff.instrumentName s) as [| | i |] eqn:EI; try discriminate.
  destruct (NWCStaff.list_index _ _ _) as [idx | |]; try discriminate.
  destruct (NWCStaff.dumpObjects _ _ _) as [[ds final] | |] eqn:E3;
    try discriminate.
  intros [= <- _].
  apply dumpObjects_lines in E3 as [F P].
  unfold NWCStaff.concat_str in E1, E2.
  injection E2 as <-.
  destruct (match NWCStaff.label s with PNone => _ | _ => _ end)
    as [| | lab |]; try discriminate.
  injection E1 as <-.
  exists lab, i, idx, ds. split; [reflexivity |]. split; [reflexivity |].
  split; [exact F |].
  repeat constructor; try assumption; eexists; reflexivity.
Qed.

Lemma dumpStaves_blocks (staves : list NWCStaff.t) :
  forall ds, NWCConverter.dumpStaves staves = Ok ds ->
    exists blocks, ds = concat blocks /\ Forall2 staff_block staves blocks.
Proof.
  induction staves as [| s rest IH]; simpl; intros ds.
  - intros [= <-]. exists []. split; [reflexivity | constructor].
  - destruct (NWCStaff.dump s ∅) as [[block m] | |] eqn:E; try discriminate.
    destruct (NWCConverter.dumpStaves rest) as [ds' | |]; try discriminate.
    intros [= <-].
    destruct (IH _ eq_refl) as (blocks & -> & F).
    exists (block :: blocks). split; [reflexivity |].
    constructor; [eapply dump_block; exact E | exact F].
Qed.

Lemma staff_block_length (s : NWCStaff.t) (block : list string) :
  staff_block s block ->
  length block = (2 + length (List.filter hasDump (NWCStaff.objects s)))%nat.
Proof.
  intros (lab & instr & idx & objlines & -> & _ & F & _).
  apply Forall2_length in F. simpl. lia.
Qed.

(** C6 (amended): when [dumpToNWCText] returns, its lines are, in order,
    one SongInfo line, then for each staff an AddStaff line, a
    StaffInstrument line and one line for each record of the staff whose
    decoder installed a rendering (Clef, KeySig, Barline, Ending,
    TimeSignature, Tempo, Note, Rest, NoteChordMember, and Text that kept
    its text); records of the other kinds contribute no line.  Every line
    starts with a pipe. *)
Theorem dump_structure (c : NWCConverter.t) (lines : list string) :
  NWCConverter.dumpToNWCText c = Ok lines ->
  exists ti au blocks,
    title (NWCConverter.header c) = PBytes ti
    /\ author (NWCConverter.header c) = PBytes au
    /\ lines = ("|SongInfo|Title:" +:+ latin_1 ti +:+ "|Author:" +:+ latin_1 au)
               :: concat blocks
    /\ Forall2 staff_block (NWCConverter.staves c) blocks
    /\ Forall piped lines
    /\ length lines
       = S (sum_list_with
              (fun s => (2 + length (List.filter hasDump (NWCStaff.objects s)))%nat)
              (NWCConverter.staves c)).
Proof.
  unfold NWCConverter.dumpToNWCText, NWCConverter.decode.
  destruct (title _) as [| | | ti]; try discriminate.
  destruct (author _) as [| | | au]; try discriminate.
  destruct (NWCConverter.dumpStaves _) as [ds | |] eqn:E; try discriminate.
  intros [= <-].
  apply dumpStaves_blocks in E as (blocks & -> & F).
  exists ti, au, blocks. repeat split; try assumption.
  - constructor; [eexists; reflexivity |].
    clear -F. induction F as [| s b ss bs Hb _ IH]; simpl; [constructor |].
    apply Forall_app. split; [| exact IH].
    destruct Hb as (? & ? & ? & ? & _ & _ & _ & P). exact P.
  - simpl. f_equal.
    clear -F. induction F as [| s b ss bs Hb _ IH]; simpl; [reflexivity |].
    rewrite length_app, IH, (staff_block_length _ _ Hb). reflexivity.
Qed.

End Lines.

(** A sharp on pitch class 1 is carried to the next unmarked Note of that
    class (an octave higher), which in turn records "no alteration"; the
    Barline empties the memory. *)
Lemma alteration_memory_witness :
  let n := fun pos alt =>
    NWCObject.Note 0 2 [x00; x00; x00] [x00; x00] pos 5 None 7 0 0 "4th" alt "" in
  let history := [n 1 "#"; n 8 ""; n 1 ""; NWCObject.Barline 0 0 0; n 8 "#"] in
  exists lines mem,
    @NWCStaff.dumpObjects sample_constants PNone history ∅ = Ok (lines, mem)
    /\ lines = ["|Note|Dur:4th|Pos:#1|"; "|Note|Dur:4th|Pos:#8|";
                "|Note|Dur:4th|Pos:1|"; "|Bar|"; "|Note|Dur:4th|Pos:#8|"]
    /\ (forall c, default "" (mem !! c) = last_recorded history c)
    /\ @NWCObject.dumpMethod sample_constants PNone (n (-6) "") mem
       = Ok ("|Note|Dur:4th|Pos:#-6|", <[1 := ""]> mem).
Proof.
  intros n history.
  destruct (@NWCStaff.dumpObjects sample_constants PNone history ∅)
    as [[lines mem] | |] eqn:E; try (vm_compute in E; discriminate).
  exists lines, mem. split; [reflexivity |].
  destruct (@alteration_memory sample_constants PNone history lines mem E)
    as (H1 & H2 & _).
  split; [vm_compute in E; injection E as <- _; reflexivity |].
  split; [exact H1 |].
  unfold n. rewrite H2. reflexivity.
Defined.

(** C6 (as stated, refuted): [docA] decodes to one staff with four records
    (Clef, Note, Text, Pedal), yet only the Clef and the Note produce a
    line: the Text was consumed as the staff label and the Pedal has no
    rendering. *)
Lemma dump_skips_records :
  exists c lines,
    @NWCConverter.parseContent sample_constants no_decompress 5 docA = Ok c
    /\ map (fun s => map NWCObject.type (NWCStaff.objects s)) (NWCConverter.staves c)
       = [["Clef"; "Note"; "Text"; "Pedal"]]
    /\ @NWCConverter.dumpToNWCText sample_constants c = Ok lines
    /\ lines = ["|SongInfo|Title:T|Author:A"; "|AddStaff|Name:Lbl";
                "|StaffInstrument|Name:Acoustic Grand Piano|Patch:0|Trans:0";
                "|Clef|Type:Treble|"; "|Note|Dur:4th|Pos:0|"].
Proof.
  destruct (@NWCConverter.parseContent sample_constants no_decompress 5 docA)
    as [c | |] eqn:E; try (vm_compute in E; discriminate).
  exists c. eexists. split; [reflexivity |].
  vm_compute in E. injection E as <-.
  split; [reflexivity |]. split; vm_compute; reflexivity.
Qed.

Lemma dump_structure_witness :
  exists c lines,
    @NWCConverter.parseContent sample_constants no_decompress 5 docA = Ok c
    /\ @NWCConverter.dumpToNWCText sample_constants c = Ok lines
    /\ Forall piped lines
    /\ length lines
       = S (sum_list_with
              (fun s => (2 + length (List.filter hasDump (NWCStaff.objects s)))%nat)
              (NWCConverter.staves c)).
Proof.
  destruct (@NWCConverter.parseContent sample_constants no_decompress 5 docA)
    as [c | |] eqn:E; try (vm_compute in E; discriminate).
  destruct (@NWCConverter.dumpToNWCText sample_constants c)
    as [lines | |] eqn:D;
    try (vm_compute in E; injection E as <-; vm_compute in D; discriminate).
  exists c, lines. split; [reflexivity |]. split; [exact D |].
  destruct (@dump_structure sample_constants c lines D)
    as (ti & au & blocks & _ & _ & _ & _ & P & L).
  split; [exact P | exact L].
Defined.

(** ** The signature check *)

Lemma isValidNWCFile_state (u : bool) (p : PState) :
  exists b x, isValidNWCFile u p = Ok (b, set_pp p x).
Proof.
  unfold isValidNWCFile, bind, get, put, ret.
  cbv beta zeta delta [readToNUL]. cbn [parsePosition fileContents set_pp].
  destruct (negb (bool_decide _)).
  - eexists _, _. reflexivity.
  - unfold bytes_ne_str. eexists _, _. reflexivity.
Qed.

Lemma parseHeaderFields_pp (p : PState) (x : Z) :
  parseHeaderFields (set_pp p x) = parseHeaderFields p.
Proof. reflexivity. Qed.

(** C1 (amended): when the first null-terminated field of the buffer is
    not the 20-byte signature, [isValidNWCFile] returns [False] without
    raising; [parseHeader] discards that value, so the header is decoded
    exactly as by the statements that follow the check (version code at
    offset 45, then the fields), and the staves are decoded after it: a
    signature mismatch does not abort the decode. *)
Theorem signature_check_ignored {C : Constants} (p q : PState) (header1 : bytes) :
  readToNUL true (set_pp p 0) = Ok (header1, q) ->
  header1 <> encode_ascii "[NoteWorthy ArtWare]" ->
  isValidNWCFile true p = Ok (false, q)
  /\ parseHeader p = parseHeaderFields p
  /\ forall fuel,
       NWCConverter.parseBody fuel p
       = (let* h := parseHeaderFields in
          let* staves :=
            NWCConverter.parseStaves fuel (groupVisibility h) 0
              (Z.to_nat (numberOfStaves h)) in
          ret (h, staves)) p.
Proof.
  intros H1 Hne.
  assert (Hhdr : forall r, parseHeader r = parseHeaderFields r).
  { intros r. unfold parseHeader. unfold bind at 1.
    destruct (isValidNWCFile_state true r) as (b & x & ->).
    apply parseHeaderFields_pp. }
  split; [| split].
  - unfold isValidNWCFile. unfold bind at 1. unfold get.
    unfold bind at 1. unfold put. unfold bind at 1. rewrite H1.
    rewrite bool_decide_eq_false_2 by exact Hne. reflexivity.
  - apply Hhdr.
  - intros fuel. unfold NWCConverter.parseBody.
    unfold bind at 1. unfold get. unfold bind at 1. unfold put.
    unfold bind at 1. rewrite Hhdr, parseHeaderFields_pp.
    reflexivity.
Qed.

(** C1 (as stated, refuted): [docB], whose first field is not the
    signature, fails the check and is nevertheless decoded to the end: one
    staff with four records, rendered to five lines. *)
Lemma invalid_signature_decodes :
  slice docB 0 20 = encode_ascii "[NotAtAllAnNWCFile!]"
  /\ (exists q, isValidNWCFile true (NWCConverter.init docB) = Ok (false, q))
  /\ exists c,
       @NWCConverter.parseContent sample_constants no_decompress 5 docB = Ok c
       /\ map (fun s => map NWCObject.type (NWCStaff.objects s))
            (NWCConverter.staves c)
          = [["Clef"; "Note"; "Text"; "Pedal"]]
       /\ @NWCConverter.dumpToNWCText sample_constants c
          = Ok ["|SongInfo|Title:T|Author:A"; "|AddStaff|Name:Lbl";
                "|StaffInstrument|Name:Acoustic Grand Piano|Patch:0|Trans:0";
                "|Clef|Type:Treble|"; "|Note|Dur:4th|Pos:0|"].
Proof.
  split; [vm_compute; reflexivity |]. split.
  - eexists. vm_compute. reflexivity.
  - destruct (@NWCConverter.parseContent sample_constants no_decompress 5 docB)
      as [c | |] eqn:E; try (vm_compute in E; discriminate).
    exists c. split; [reflexivity |].
    vm_compute in E. injection E as <-.
    split; vm_compute; reflexivity.
Qed.

Lemma signature_check_ignored_witness :
  let p := NWCConverter.init docB in
  isValidNWCFile true p = Ok (false, set_pp p 21)
  /\ parseHeader p = parseHeaderFields p.
Proof.
  intros p.
  destruct (@signature_check_ignored sample_constants p (set_pp p 21)
              (encode_ascii "[NotAtAllAnNWCFile!]"))
    as (H1 & H2 & _).
  - vm_compute. reflexivity.
  - vm_compute. discriminate.
  - split; [exact H1 | exact H2].
Defined.

(** ** Text records and the staff label *)

Lemma byteToInt_enough (p : PState) :
  0 <= parsePosition p ->
  parsePosition p + 1 <= len (fileContents p) ->
  exists v, byteToInt true p = Ok (v, set_pp p (parsePosition p + 1)).
Proof.
  intros H0 H1. unfold len in H1. unfold byteToInt.
  rewrite slice_nonneg by lia.
  replace (Z.to_nat (parsePosition p + 1 - parsePosition p)) with 1%nat by lia.
  assert (L : (1 <= length (drop (Z.to_nat (parsePosition p)) (fileContents p)))%nat)
    by (rewrite length_drop; lia).
  destruct (drop _ _) as [| b0 r]; simpl in L; try lia.
  simpl. eauto.
Qed.

(** C10: a Text record decoded for a staff (three attribute bytes, then a
    null-terminated string).  While the staff label is still [None] the
    string becomes the label, latin-1 decoded, the record keeps no text and
    renders no line; once the staff has a label the record keeps its text
    and renders [|Text|Text:] followed by the decoded text. *)
Theorem text_label {C : Constants} (visible : Z) (p : PState) :
  0 <= parsePosition p ->
  parsePosition p + 3 <= len (fileContents p) ->
  exists pos data font text q,
    readToNUL true (set_pp p (parsePosition p + 3)) = Ok (text, q)
    /\ (staffLabel p = PNone ->
        NWCObject.textObj NWCObject.StaffParent visible p
        = Ok (NWCObject.Text visible pos data font None,
              set_label q (PStr (latin_1 text)))
        /\ forall instr m,
             NWCObject.dumpMethod instr
               (NWCObject.Text visible pos data font None) m = Ok ("", m)
             /\ NWCStaff.dumpObjects instr
                  [NWCObject.Text visible pos data font None] m = Ok ([], m))
    /\ (staffLabel p <> PNone ->
        NWCObject.textObj NWCObject.StaffParent visible p
        = Ok (NWCObject.Text visible pos data font (Some text), q)
        /\ staffLabel q = staffLabel p
        /\ forall instr m,
             NWCObject.dumpMethod instr
               (NWCObject.Text visible pos data font (Some text)) m
             = Ok ("|Text|Text:" +:+ latin_1 text, m)
             /\ NWCStaff.dumpObjects instr
                  [NWCObject.Text visible pos data font (Some text)] m
                = Ok (["|Text|Text:" +:+ latin_1 text], m)).
Proof.
  intros H0 H3.
  destruct (byteToInt_enough p H0 ltac:(lia)) as (pos & E1).
  set (p1 := set_pp p (parsePosition p + 1)) in *.
  destruct (byteToInt_enough p1) as (data & E2); [cbn; lia | cbn; lia |].
  set (p2 := set_pp p1 (parsePosition p1 + 1)) in *.
  destruct (byteToInt_enough p2) as (font & E3); [cbn; lia | cbn; lia |].
  set (p3 := set_pp p2 (parsePosition p2 + 1)) in *.
  assert (P3 : p3 = set_pp p (parsePosition p + 3)).
  { subst p3 p2 p1. unfold set_pp; cbn. f_equal. lia. }
  destruct (readToNUL true p3) as [[text q] | |] eqn:E4;
    try (cbv beta zeta delta [readToNUL] in E4; discriminate).
  assert (L : staffLabel q = staffLabel p).
  { cbv beta zeta delta [readToNUL] in E4. injection E4 as _ <-.
    reflexivity. }
  exists pos, data, font, text, q.
  split; [rewrite <- P3; exact E4 |].
  assert (U :
            NWCObject.textObj NWCObject.StaffParent visible p
            = (let* p := get in
               match staffLabel p with
               | PNone =>
                   put (set_label p (PStr (latin_1 text))) ;;
                   ret (NWCObject.Text visible pos data font None)
               | _ => ret (NWCObject.Text visible pos data font (Some text))
               end) q) by
    (unfold NWCObject.textObj;
     unfold bind at 1; rewrite E1; unfold bind at 1; rewrite E2;
     unfold bind at 1; rewrite E3; unfold bind at 1; rewrite E4;
     reflexivity).
  split.
  - intros HN. split.
    + rewrite U. unfold bind, get, put, ret. rewrite L, HN. reflexivity.
    + intros instr m. split; reflexivity.
  - intros HN. split; [| split; [exact L |]].
    + rewrite U. unfold bind, get, ret. rewrite L.
      destruct (staffLabel p); [contradiction | | |]; reflexivity.
    + intros instr m. split; reflexivity.
Qed.

(** The Text record of [docA] is the first of its staff, which has no
    label yet: its string "Lbl" becomes the label. *)
Lemma text_label_witness :
  let p := mkPState (encode_ascii "abcLbl" ++ [x00]) 0 175 PNone in
  exists pos data font,
    NWCObject.textObj NWCObject.StaffParent 0 p
    = Ok (NWCObject.Text 0 pos data font None,
          mkPState (encode_ascii "abcLbl" ++ [x00]) 7 175 (PStr "Lbl")).
Proof.
  intros p.
  destruct (@text_label sample_constants 0 p)
    as (pos & data & font & text & q & E & HN & _).
  - simpl. lia.
  - unfold len. simpl. lia.
  - exists pos, data, font.
    destruct (HN eq_refl) as [-> _].
    vm_compute in E. injection E as <- <-. reflexivity.
Defined.

(** ** The object dispatcher *)

Lemma getitem_lookup {A} (l : list A) (i : Z) (x : A) :
  0 <= i -> l !! Z.to_nat i = Some x -> getitem l i = Ok x.
Proof.
  intros Hi L. unfold getitem.
  pose proof (lookup_lt_Some _ _ _ L).
  destruct (Z.ltb_spec i 0); [lia |].
  destruct (Z.ltb_spec i 0); [lia |].
  destruct (Z.leb_spec (Z.of_nat (length l)) i); [lia |].
  cbn [orb]. rewrite L. reflexivity.
Qed.

Lemma repeatM_length {A} (body : M A) (n : nat) :
  forall p l q, repeatM n body p = Ok (l, q) -> length l = n.
Proof.
  induction n as [| n IH]; simpl; intros p l q H.
  - unfold ret in H. injection H as <- _. reflexivity.
  - apply bind_Ok in H as (x & p1 & _ & H).
    apply bind_Ok in H as (xs & p2 & E & H).
    unfold ret in H. injection H as <- _. simpl. f_equal. eauto.
Qed.

(** A failing iteration ends the loop with its exception, however many
    iterations were still to come. *)
Lemma repeatM_raise {A} (body : M A) (e : exn) (k m : nat) :
  forall p0 l p,
    repeatM k body p0 = Ok (l, p) ->
    body p = Raise e ->
    repeatM (k + S m) body p0 = Raise e.
Proof.
  induction k as [| k IH]; simpl; intros p0 l p H E.
  - unfold ret in H. injection H as _ <-.
    unfold bind. rewrite E. reflexivity.
  - apply bind_Ok in H as (x & p1 & E1 & H).
    apply bind_Ok in H as (xs & p2 & E2 & H).
    unfold ret in H. injection H as _ <-.
    unfold bind at 1. rewrite E1.
    unfold bind at 1. rewrite (IH _ _ _ E2 E). reflexivity.
Qed.

(** Runs a decoder symbolically down to the record it returns. *)
Ltac run_decoder H :=
  cbv beta zeta in H;
  repeat first
    [ apply bind_Ok in H as (? & ? & _ & H); cbv beta zeta in H
    | match type of H with
      | (if ?c then _ else _) _ = Ok _ => destruct c
      | (match ?x with _ => _ end) _ = Ok _ => is_var x; destruct x
      | ret _ _ = Ok _ => unfold ret in H; injection H as <- _
      | raise _ _ = Ok _ => discriminate H
      end ].

Section Dispatch.
Context {C : Constants}.

Lemma objMethods_types (rec : NWCObject.Parent -> M NWCObject.t) (i : nat)
    (objectMethod : NWCObject.Parent -> Z -> M NWCObject.t)
    (parent : NWCObject.Parent) (visible : Z) (p q : PState) (o : NWCObject.t) :
  NWCObject.objMethods rec !! i = Some objectMethod ->
  objectMethod parent visible p = Ok (o, q) ->
  objTypes !! i = Some (NWCObject.type o).
Proof.
  intros Hi H.
  do 19 (try destruct i as [| i]); try discriminate Hi;
    injection Hi as <-.
  all: first [ unfold NWCObject.clef in H | unfold NWCObject.keySig in H
             | unfold NWCObject.barline in H | unfold NWCObject.ending in H
             | unfold NWCObject.instrument in H | unfold NWCObject.timeSig in H
             | unfold NWCObject.tempo in H | unfold NWCObject.dynamic in H
             | unfold NWCObject.note in H | unfold NWCObject.rest in H
             | unfold NWCObject.noteChordMember in H
             | unfold NWCObject.pedal in H | unfold NWCObject.flowDir in H
             | unfold NWCObject.mpc in H | unfold NWCObject.tempoVariation in H
             | unfold NWCObject.dynamicVariation in H
             | unfold NWCObject.performance in H
             | unfold NWCObject.textObj in H
             | unfold NWCObject.restChordMember in H ].
  all: run_decoder H; try reflexivity.
  destruct (staffLabel _); run_decoder H; reflexivity.
Qed.

(** C8: once the 16-bit type tag of a record has been read, a tag below 0
    or above 18 makes [parseObject] raise
    [NoteworthyBinaryTranslateException], and the loop over the records of
    the staff ends with that exception whatever it had decoded before; a
    tag from 0 to 18 selects the entry of [objMethods] at that index, which
    is run after the visibility byte (read when the version is at least
    170), and the record it returns has the type of that entry. *)
Theorem object_dispatch (fuel : nat) (parent : NWCObject.Parent)
    (p p1 : PState) (objectType : Z) :
  readLEShort true p = Ok (objectType, p1) ->
  (objectType < 0 \/ 18 < objectType ->
   NWCObject.parseObject (S fuel) parent p
   = Raise (NoteworthyBinaryTranslateException objectType)
   /\ forall k m p0 objects,
        repeatM k (NWCObject.parseObject (S fuel) parent) p0 = Ok (objects, p) ->
        repeatM (k + S m) (NWCObject.parseObject (S fuel) parent) p0
        = Raise (NoteworthyBinaryTranslateException objectType))
  /\ (0 <= objectType <= 18 ->
      exists objectMethod,
        NWCObject.objMethods (NWCObject.parseObject fuel) !! Z.to_nat objectType
        = Some objectMethod
        /\ NWCObject.parseObject (S fuel) parent p
           = (let* visible :=
                if 170 <=? version p1 then byteToInt true else ret 0 in
              objectMethod parent visible) p1
        /\ forall o q,
             NWCObject.parseObject (S fuel) parent p = Ok (o, q) ->
             objTypes !! Z.to_nat objectType = Some (NWCObject.type o)).
Proof.
  intros Htag.
  assert (Hlen : len (NWCObject.objMethods (NWCObject.parseObject fuel)) = 19)
    by reflexivity.
  split.
  - intros Hout.
    assert (E : NWCObject.parseObject (S fuel) parent p
                = Raise (NoteworthyBinaryTranslateException objectType)).
    { cbn [NWCObject.parseObject]. unfold bind at 1. rewrite Htag, Hlen.
      destruct (Z.leb_spec 19 objectType), (Z.ltb_spec objectType 0);
        try reflexivity; lia. }
    split; [exact E |].
    intros k m p0 objects H. eapply repeatM_raise; eassumption.
  - intros Hin.
    destruct (NWCObject.objMethods (NWCObject.parseObject fuel) !! Z.to_nat objectType)
      as [objectMethod |] eqn:L.
    2:{ apply lookup_ge_None in L. unfold len in Hlen. lia. }
    exists objectMethod. split; [reflexivity |].
    assert (E : NWCObject.parseObject (S fuel) parent p
                = (let* visible :=
                     if 170 <=? version p1 then byteToInt true else ret 0 in
                   objectMethod parent visible) p1).
    { cbn [NWCObject.parseObject]. unfold bind at 1. rewrite Htag, Hlen.
      destruct (Z.leb_spec 19 objectType); [lia |].
      destruct (Z.ltb_spec objectType 0); [lia |].
      cbn [orb]. unfold bind at 1, NWCObject.getVersion.
      unfold bind at 1 3.
      destruct (if 170 <=? version p1 then byteToInt true else ret 0) as [[visible p2] | |];
        try reflexivity.
      unfold bind at 1, lift.
      rewrite (getitem_lookup _ objectType _ ltac:(lia) L). reflexivity. }
    split; [exact E |].
    intros o q H. rewrite E in H.
    apply bind_Ok in H as (visible & p2 & _ & H).
    eapply objMethods_types; eassumption.
Qed.

End Dispatch.

(** A record with tag 19 aborts the decode; tag 11 runs the Pedal
    decoder. *)
Lemma object_dispatch_witness :
  let bad := mkPState [x13; x00; x00] 0 175 PNone in
  let good := mkPState [x0b; x00; x00; x01; x02; x03] 0 175 PNone in
  @NWCObject.parseObject sample_constants 1 NWCObject.StaffParent bad
  = Raise (NoteworthyBinaryTranslateException 19)
  /\ @NWCObject.parseObject sample_constants 1 NWCObject.StaffParent good
     = Ok (NWCObject.Pedal 0 1 2 3, set_pp good 6).
Proof.
  intros bad good. split.
  - destruct (@object_dispatch sample_constants 0 NWCObject.StaffParent
                bad (set_pp bad 2) 19 eq_refl) as [H _].
    apply H. lia.
  - destruct (@object_dispatch sample_constants 0 NWCObject.StaffParent
                good (set_pp good 2) 11 eq_refl) as [_ H].
    destruct (H ltac:(lia)) as (m & L & E & _).
    rewrite E. vm_compute in L. injection L as <-. reflexivity.
Defined.

(** ** Chord members *)


Section Chords.
Context {C : Constants}.


End Chords.



(** * Further properties of the decoder *)

(** ** The cursor primitives *)

Lemma slice_one {A} (s : list A) (q : Z) (x : A) :
  0 <= q -> slice s q (q + 1) = [x] -> s !! Z.to_nat q = Some x.
Proof.
  intros Hq H. rewrite slice_nonneg in H by lia.
  replace (Z.to_nat (q + 1 - q)) with 1%nat in H by lia.
  rewrite <- (Nat.add_0_r (Z.to_nat q)), <- lookup_drop.
  destruct (drop (Z.to_nat q) s) as [| y r]; [discriminate |].
  injection H as ->. reflexivity.
Qed.

Lemma slice_one_enough {A} (s : list A) (q : Z) :
  0 <= q -> q + 1 <= len s -> exists x, slice s q (q + 1) = [x].
Proof.
  intros H0 H1. unfold len in H1. rewrite slice_nonneg by lia.
  replace (Z.to_nat (q + 1 - q)) with 1%nat by lia.
  assert (L : (1 <= length (drop (Z.to_nat q) s))%nat)
    by (rewrite length_drop; lia).
  destruct (drop _ _) as [| y r]; simpl in L; [lia |]. eauto.
Qed.

(** [byteToSignedInt]: with a byte [b] at the cursor the result is the
    two's-complement reading of [b]: it lies in -128..127, agrees with [b]
    modulo 256, and the cursor advances by one. *)
Theorem byteToSignedInt_value (p : PState) :
  0 <= parsePosition p ->
  parsePosition p + 1 <= len (fileContents p) ->
  exists b v,
    slice (fileContents p) (parsePosition p) (parsePosition p + 1) = [b]
    /\ byteToSignedInt true p = Ok (v, set_pp p (parsePosition p + 1))
    /\ -128 <= v <= 127
    /\ v `mod` 256 = b2z b
    /\ (v = b2z b <-> b2z b <= 127).
Proof.
  intros H0 H1.
  destruct (slice_one_enough _ _ H0 H1) as (b & E).
  pose proof (b2z_range b) as R.
  exists b, (if 127 <? b2z b then b2z b - 256 else b2z b).
  split; [exact E |]. split.
  - unfold byteToSignedInt, bind, byteToInt. rewrite E. reflexivity.
  - destruct (Z.ltb_spec 127 (b2z b)).
    + split; [lia |]. split; [| lia].
      replace (b2z b - 256) with (b2z b + (-1) * 256) by lia.
      rewrite Z.mod_add by lia. apply Z.mod_small. lia.
    + split; [lia |]. split; [apply Z.mod_small; lia | lia].
Qed.

Lemma byteToSignedInt_value_witness :
  byteToSignedInt true (mkPState [x01; xfe] 1 200 PNone)
  = Ok (-2, mkPState [x01; xfe] 2 200 PNone).
Proof.
  destruct (byteToSignedInt_value (mkPState [x01; xfe] 1 200 PNone))
    as (b & v & _ & E & _); [simpl; lia | unfold len; simpl; lia |].
  reflexivity.
Defined.

(** The eight version codes, and nothing else, are keys of the table. *)
Lemma versionFromHex_other (raw : Z) :
  raw <> 0x0114 -> raw <> 0x011E -> raw <> 0x0132 -> raw <> 0x0137 ->
  raw <> 0x0146 -> raw <> 0x014B -> raw <> 0x0200 -> raw <> 0x0201 ->
  versionFromHex !! raw = None.
Proof.
  intros. unfold versionFromHex. cbn [list_to_map foldr uncurry fst snd].
  rewrite !lookup_insert_ne by congruence. apply lookup_empty.
Qed.

(** [fileVersion]: with the two bytes at offsets 45 and 46 in the buffer,
    the call returns the version that the table gives for the 16-bit code
    read there, and 201 for any code that is not in the table; it stores
    that version, and leaves the cursor at 47, or where it was when asked
    not to update it.  On a buffer of fewer than 47 bytes it raises
    [struct.error]. *)
Theorem fileVersion_resolves (u : bool) (p : PState) :
  (47 <= len (fileContents p) ->
   exists raw v,
     readLEShort true (set_pp p 45) = Ok (raw, set_pp p 47)
     /\ fileVersion u p
        = Ok (v, set_version (set_pp p (if u then 47 else parsePosition p)) v)
     /\ (raw = 0x0114 -> v = 120) /\ (raw = 0x011E -> v = 130)
     /\ (raw = 0x0132 -> v = 150) /\ (raw = 0x0137 -> v = 155)
     /\ (raw = 0x0146 -> v = 170) /\ (raw = 0x014B -> v = 175)
     /\ (raw = 0x0200 -> v = 200) /\ (raw = 0x0201 -> v = 201)
     /\ (raw <> 0x0114 -> raw <> 0x011E -> raw <> 0x0132 -> raw <> 0x0137 ->
         raw <> 0x0146 -> raw <> 0x014B -> raw <> 0x0200 -> v = 201)
     /\ In v [120; 130; 150; 155; 170; 175; 200; 201])
  /\ (len (fileContents p) < 47 -> fileVersion u p = Raise StructError).
Proof.
  split.
  - intros H47.
    destruct (readLEShort_enough (set_pp p 45)) as (raw & E);
      [cbn; lia | cbn; lia |].
    cbn [parsePosition set_pp] in E.
    exists raw, (match versionFromHex !! raw with Some v => v | None => 201 end).
    split; [exact E |]. split.
    { unfold fileVersion, bind, get, put, ret.
      destruct u.
      - rewrite E. reflexivity.
      - assert (E' : readLEShort false (set_pp p 45) = Ok (raw, set_pp p 45)).
        { unfold readLEShort in *. destruct (unpack_h _); [| discriminate ..].
          injection E as ->. reflexivity. }
        rewrite E'. cbn. destruct p; reflexivity. }
    repeat split; try (intros ->; reflexivity).
    + intros. destruct (Z.eq_dec raw 0x0201) as [-> | ?]; [reflexivity |].
      rewrite versionFromHex_other by assumption. reflexivity.
    + destruct (Z.eq_dec raw 0x0114) as [-> | ?]; [cbn; tauto |].
      destruct (Z.eq_dec raw 0x011E) as [-> | ?]; [cbn; tauto |].
      destruct (Z.eq_dec raw 0x0132) as [-> | ?]; [cbn; tauto |].
      destruct (Z.eq_dec raw 0x0137) as [-> | ?]; [cbn; tauto |].
      destruct (Z.eq_dec raw 0x0146) as [-> | ?]; [cbn; tauto |].
      destruct (Z.eq_dec raw 0x014B) as [-> | ?]; [cbn; tauto |].
      destruct (Z.eq_dec raw 0x0200) as [-> | ?]; [cbn; tauto |].
      destruct (Z.eq_dec raw 0x0201) as [-> | ?]; [cbn; tauto |].
      rewrite versionFromHex_other by assumption. cbn; tauto.
  - intros H. unfold len in H.
    unfold fileVersion, bind, get, put, readLEShort.
    cbn [parsePosition fileContents set_pp].
    rewrite slice_nonneg by lia.
    assert (L : (length (take (Z.to_nat (45 + 2 - 45))
                           (drop (Z.to_nat 45) (fileContents p))) <= 1)%nat).
    { rewrite length_take, length_drop. lia. }
    destruct (take _ _) as [| b0 [| b1 r]]; simpl in L; try lia; reflexivity.
Qed.

Lemma fileVersion_resolves_witness :
  exists raw,
    readLEShort true (set_pp (NWCConverter.init docA) 45)
    = Ok (raw, set_pp (NWCConverter.init docA) 47)
    /\ fileVersion false (set_pp (NWCConverter.init docA) 7)
       = Ok (175, set_version (set_pp (NWCConverter.init docA) 7) 175).
Proof.
  destruct (fileVersion_resolves false (set_pp (NWCConverter.init docA) 7))
    as [H _].
  destruct H as (raw & v & E & F & _ & _ & _ & _ & _ & H175 & _).
  - vm_compute. discriminate.
  - exists raw. split; [exact E |].
    rewrite F. rewrite H175; [reflexivity |].
    vm_compute in E. injection E as <-. reflexivity.
Defined.

Lemma advance_loop_zeros (fc : bytes) (fuel : nat) :
  forall pp, 0 <= pp ->
    let pp' := advance_loop fuel fc pp in
    pp <= pp'
    /\ forall i, pp <= i < pp' -> fc !! Z.to_nat i = Some x00.
Proof.
  induction fuel as [| f IH]; intros pp H0; cbn [advance_loop].
  - split; [lia |]. intros i Hi. lia.
  - destruct (bool_decide (slice fc pp (pp + 1) = [x00])) eqn:D.
    + apply bool_decide_eq_true in D. apply slice_one in D; [| exact H0].
      destruct (IH (pp + 1) ltac:(lia)) as [M Z].
      split; [lia |]. intros i Hi.
      destruct (Z.eq_dec i pp) as [-> | ?]; [exact D |].
      apply Z. lia.
    + split; [lia |]. intros i Hi. lia.
Qed.

(** [advanceToNotNUL] moves the cursor forward over zero bytes only, and
    stops at the first position that does not hold a zero byte (a byte of
    another value, or the end of the buffer). *)
Theorem advanceToNotNUL_stops (p : PState) :
  0 <= parsePosition p ->
  exists pp',
    advanceToNotNUL p = Ok (tt, set_pp p pp')
    /\ parsePosition p <= pp'
    /\ (forall i, parsePosition p <= i < pp' ->
                  fileContents p !! Z.to_nat i = Some x00)
    /\ fileContents p !! Z.to_nat pp' <> Some x00.
Proof.
  intros H0.
  exists (advance_loop (S (length (fileContents p))) (fileContents p)
            (parsePosition p)).
  split; [reflexivity |].
  destruct (advance_loop_zeros (fileContents p)
              (S (length (fileContents p))) (parsePosition p) H0) as [M Z].
  split; [exact M |]. split; [exact Z |].
  pose proof (advance_loop_stops (fileContents p) (parsePosition p)) as S.
  cbv zeta in S. intros L. apply S.
  set (q := advance_loop _ _ _) in *.
  rewrite slice_nonneg by lia.
  replace (Z.to_nat (q + 1 - q)) with 1%nat by lia.
  rewrite <- (Nat.add_0_r (Z.to_nat q)), <- lookup_drop in L.
  destruct (drop (Z.to_nat q) (fileContents p)) as [| y r]; [discriminate |].
  injection L as ->. reflexivity.
Qed.

Lemma advanceToNotNUL_stops_witness :
  advanceToNotNUL (mkPState [x07; x00; x00; x00; x09; x00] 1 200 PNone)
  = Ok (tt, mkPState [x07; x00; x00; x00; x09; x00] 4 200 PNone).
Proof.
  destruct (advanceToNotNUL_stops
              (mkPState [x07; x00; x00; x00; x09; x00] 1 200 PNone))
    as (pp' & E & _); [simpl; lia |].
  reflexivity.
Defined.

Lemma find_from_spec (l : bytes) :
  forall i,
    match find_from l i with
    | Some j =>
        i <= j
        /\ l !! Z.to_nat (j - i) = Some x00
        /\ x00 ∉ take (Z.to_nat (j - i)) l
    | None => x00 ∉ l
    end.
Proof.
  induction l as [| b t IH]; intros i; cbn [find_from].
  - apply not_elem_of_nil.
  - destruct (Byte.eqb b x00) eqn:E.
    + apply Byte.byte_dec_bl in E. subst b.
      replace (Z.to_nat (i - i)) with 0%nat by lia.
      split; [lia |]. split; [reflexivity |]. apply not_elem_of_nil.
    + assert (b <> x00).
      { intros ->. discriminate. }
      specialize (IH (i + 1)).
      destruct (find_from t (i + 1)) as [j |].
      * destruct IH as (Hj & L & N).
        replace (Z.to_nat (j - i)) with (S (Z.to_nat (j - (i + 1)))) by lia.
        split; [lia |]. split; [exact L |].
        cbn [take]. intros [? | ?]%elem_of_cons; [congruence | contradiction].
      * intros [? | ?]%elem_of_cons; [congruence | contradiction].
Qed.

(** What [readToNUL] returns is free of zero bytes, whether a terminator
    was found or not. *)
Lemma readToNUL_zero_free (u : bool) (p q : PState) (r : bytes) :
  readToNUL u p = Ok (r, q) -> x00 ∉ r.
Proof.
  cbv beta zeta delta [readToNUL]. unfold index0.
  set (n := Z.of_nat (length (fileContents p))).
  set (a := adjust n (parsePosition p)).
  assert (Ha : 0 <= a <= n).
  { subst a. unfold adjust. subst n.
    destruct (Z.ltb_spec (parsePosition p) 0); lia. }
  pose proof (find_from_spec (drop (Z.to_nat a) (fileContents p)) a) as S.
  destruct (find_from _ a) as [j |] eqn:F.
  - destruct S as (Hj & L & N).
    apply find_from_bounds in F. unfold len in F.
    rewrite length_drop in F.
    destruct (Z.eqb_spec j (-1)); [lia |].
    intros [= <- _]. unfold slice. fold n. fold a.
    replace (adjust n j) with j by (unfold adjust; destruct (Z.ltb_spec j 0); lia).
    exact N.
  - cbn. intros [= <- _]. unfold slice_from. fold n. fold a. exact S.
Qed.

Lemma adjust_inside (n q : Z) : 0 <= q <= n -> adjust n q = q.
Proof.
  intros H. unfold adjust. destruct (Z.ltb_spec q 0); lia.
Qed.

(** [readToNUL] with a zero byte at or after the cursor: the result holds
    no zero byte, the bytes consumed are the result followed by the
    terminator, and the cursor ends just past the terminator. *)
Theorem readToNUL_terminated (p : PState) :
  0 <= parsePosition p ->
  x00 ∈ drop (Z.to_nat (parsePosition p)) (fileContents p) ->
  exists r,
    readToNUL true p = Ok (r, set_pp p (parsePosition p + len r + 1))
    /\ (x00 ∉ r)
    /\ slice (fileContents p) (parsePosition p) (parsePosition p + len r + 1)
       = (r ++ [x00])%list.
Proof.
  intros H0 Hin.
  set (fc := fileContents p) in *. set (pp := parsePosition p) in *.
  assert (Hlen : pp < Z.of_nat (length fc)).
  { destruct (Z.lt_ge_cases pp (Z.of_nat (length fc))); [assumption |].
    rewrite drop_ge in Hin by lia. apply elem_of_nil in Hin. contradiction. }
  pose proof (find_from_spec (drop (Z.to_nat pp) fc) pp) as S.
  destruct (find_from (drop (Z.to_nat pp) fc) pp) as [j |] eqn:F;
    [| contradiction].
  destruct S as (Hj & L & N).
  pose proof (find_from_bounds _ _ _ F) as B. unfold len in B.
  rewrite length_drop in B.
  assert (R : len (take (Z.to_nat (j - pp)) (drop (Z.to_nat pp) fc)) = j - pp).
  { unfold len. rewrite length_take, length_drop. lia. }
  exists (take (Z.to_nat (j - pp)) (drop (Z.to_nat pp) fc)).
  rewrite R. replace (pp + (j - pp) + 1) with (j + 1) by lia.
  split; [| split; [exact N |]].
  - cbv beta zeta delta [readToNUL]. unfold index0.
    fold fc. fold pp. rewrite adjust_inside by lia. rewrite F.
    destruct (Z.eqb_spec j (-1)); [lia |].
    rewrite slice_nonneg by lia. reflexivity.
  - rewrite slice_nonneg by lia.
    replace (Z.to_nat (j + 1 - pp)) with (S (Z.to_nat (j - pp))) by lia.
    apply take_S_r. exact L.
Qed.

Lemma readToNUL_terminated_witness :
  readToNUL true (mkPState [x01; x41; x42; x00; x02] 1 200 PNone)
  = Ok ([x41; x42], mkPState [x01; x41; x42; x00; x02] 4 200 PNone).
Proof.
  destruct (readToNUL_terminated (mkPState [x01; x41; x42; x00; x02] 1 200 PNone))
    as (r & E & _ & _).
  - simpl. lia.
  - vm_compute. repeat constructor.
  - reflexivity.
Defined.

(** [readToNUL] with no zero byte at or after the cursor returns the rest
    of the buffer and leaves the cursor at 0, the start of the buffer. *)
Theorem readToNUL_unterminated (p : PState) :
  0 <= parsePosition p ->
  x00 ∉ drop (Z.to_nat (parsePosition p)) (fileContents p) ->
  readToNUL true p
  = Ok (drop (Z.to_nat (parsePosition p)) (fileContents p), set_pp p 0).
Proof.
  intros H0 Hnot.
  set (fc := fileContents p) in *. set (pp := parsePosition p) in *.
  set (a := adjust (Z.of_nat (length fc)) pp).
  assert (Ha : drop (Z.to_nat a) fc = drop (Z.to_nat pp) fc).
  { subst a. unfold adjust. destruct (Z.ltb_spec pp 0); [lia |].
    destruct (Z.le_gt_cases pp (Z.of_nat (length fc))).
    - rewrite Z.min_l by lia. reflexivity.
    - rewrite Z.min_r by lia. rewrite !drop_ge by lia. reflexivity. }
  cbv beta zeta delta [readToNUL]. unfold index0, slice_from.
  fold fc. fold pp. fold a. rewrite Ha.
  pose proof (find_from_spec (drop (Z.to_nat pp) fc) a) as S.
  destruct (find_from (drop (Z.to_nat pp) fc) a) as [j |].
  - destruct S as (_ & L & _). exfalso. apply Hnot.
    eapply list_elem_of_lookup_2. exact L.
  - reflexivity.
Qed.

Lemma readToNUL_unterminated_witness :
  readToNUL true (mkPState [x00; x41; x42] 1 200 PNone)
  = Ok ([x41; x42], mkPState [x00; x41; x42] 0 200 PNone).
Proof.
  apply (readToNUL_unterminated (mkPState [x00; x41; x42] 1 200 PNone)).
  - simpl. lia.
  - vm_compute. intros H. inversion H as [| ? ? ? H']; subst.
    inversion H' as [| ? ? ? H'']; subst. inversion H''.
Defined.

(** Reading without updating: each primitive called with
    [updateParsePosition=False] returns what the updating call returns and
    leaves the converter as it was. *)
Theorem reads_without_update (p : PState) (n : Z) :
  (forall v q, readLEShort true p = Ok (v, q) -> readLEShort false p = Ok (v, p))
  /\ (forall v q, byteToInt true p = Ok (v, q) -> byteToInt false p = Ok (v, p))
  /\ (forall v q, byteToSignedInt true p = Ok (v, q) ->
                  byteToSignedInt false p = Ok (v, p))
  /\ (forall v q, readBytes n true p = Ok (v, q) -> readBytes n false p = Ok (v, p))
  /\ (forall v q, readToNUL true p = Ok (v, q) -> readToNUL false p = Ok (v, p)).
Proof.
  repeat split; intros v q.
  - unfold readLEShort. destruct (unpack_h _); intros [=]; subst. reflexivity.
  - unfold byteToInt. destruct (ord _); intros [=]; subst. reflexivity.
  - unfold byteToSignedInt, bind, byteToInt.
    destruct (ord _); intros [=]; subst. reflexivity.
  - unfold readBytes. intros [=]; subst. reflexivity.
  - cbv beta zeta delta [readToNUL]. intros [=]; subst. reflexivity.
Qed.

(** [readBytes] returns the bytes that remain, at most [bytesToRead] of
    them, and moves the cursor by [bytesToRead] all the same, so the
    cursor can end beyond the buffer. *)
Theorem readBytes_truncates (p : PState) (n : Z) :
  0 <= parsePosition p -> 0 <= n ->
  exists r,
    readBytes n true p = Ok (r, set_pp p (parsePosition p + n))
    /\ len r = Z.min n (Z.max 0 (len (fileContents p) - parsePosition p))
    /\ r = take (Z.to_nat n) (drop (Z.to_nat (parsePosition p)) (fileContents p)).
Proof.
  intros H0 Hn. eexists. split; [reflexivity |].
  rewrite slice_nonneg by lia.
  replace (Z.to_nat (parsePosition p + n - parsePosition p)) with (Z.to_nat n) by lia.
  split; [| reflexivity].
  unfold len. rewrite length_take, length_drop. lia.
Qed.

Lemma readBytes_truncates_witness :
  readBytes 5 true (mkPState [x01; x02; x03] 1 200 PNone)
  = Ok ([x02; x03], mkPState [x01; x02; x03] 6 200 PNone).
Proof.
  destruct (readBytes_truncates (mkPState [x01; x02; x03] 1 200 PNone) 5)
    as (r & E & _ & _); [simpl; lia | lia |].
  reflexivity.
Defined.

(** [isValidNWCFile] never raises and never returns [True]: a buffer that
    passes the first comparison always fails the second one, which
    compares the bytes read with a text string. *)
Theorem isValidNWCFile_false (u : bool) (p : PState) :
  exists x, isValidNWCFile u p = Ok (false, set_pp p x).
Proof.
  unfold isValidNWCFile, bind, get, put, ret.
  cbv beta zeta delta [readToNUL]. cbn [parsePosition fileContents set_pp].
  destruct (negb (bool_decide _)).
  - eexists. reflexivity.
  - unfold bytes_ne_str. eexists. reflexivity.
Qed.

(** ** Lyrics *)

Lemma scanSyllables_syllables (maxRead : nat) :
  forall p l q,
    NWCStaff.scanSyllables maxRead p = Ok (l, q) ->
    (length l <= maxRead)%nat
    /\ Forall (fun syllable => syllable <> [] /\ x00 ∉ syllable) l.
Proof.
  induction maxRead as [| m IH]; intros p l q; cbn [NWCStaff.scanSyllables].
  - unfold ret. intros [= <- _]. split; [simpl; lia | constructor].
  - intros H. apply bind_Ok in H as (syllable & p1 & E & H).
    apply readToNUL_zero_free in E.
    destruct (bool_decide (syllable = [])) eqn:D.
    + unfold ret in H. injection H as <- _. split; [simpl; lia | constructor].
    + apply bool_decide_eq_false in D.
      apply bind_Ok in H as (l' & p2 & E' & H).
      unfold ret in H. injection H as <- _.
      apply IH in E' as [L F].
      split; [simpl; lia |]. constructor; [split; assumption | exact F].
Qed.

(** A lyric block yields at most 1000 syllables, none of them empty and
    none containing a zero byte. *)
Theorem lyric_block_syllables (size : Z) (p q : PState) (syllables : list bytes) :
  NWCStaff.parseLyricBlock size p = Ok (syllables, q) ->
  (length syllables <= 1000)%nat
  /\ Forall (fun syllable => syllable <> [] /\ x00 ∉ syllable) syllables.
Proof.
  intros H. unfold NWCStaff.parseLyricBlock in H.
  apply bind_Ok in H as (v1 & q1 & _ & H).
  apply bind_Ok in H as (start & q2 & _ & H).
  apply bind_Ok in H as (v2 & q3 & _ & H).
  apply bind_Ok in H as (syl & q4 & E & H).
  apply bind_Ok in H as ([] & q5 & _ & H).
  unfold ret in H. injection H as <- _.
  exact (scanSyllables_syllables _ _ _ _ E).
Qed.

Lemma lyric_block_syllables_witness :
  let p := mkPState [x09; x00; x00; x00; x6c; x61; x00; x6c; x75; x00; x00]
             0 175 PNone in
  exists syllables q,
    NWCStaff.parseLyricBlock 9 p = Ok (syllables, q)
    /\ syllables = [encode_ascii "la"; encode_ascii "lu"]
    /\ Forall (fun syllable => syllable <> [] /\ x00 ∉ syllable) syllables.
Proof.
  intros p.
  destruct (NWCStaff.parseLyricBlock 9 p) as [[syllables q] | |] eqn:E;
    try (vm_compute in E; discriminate).
  exists syllables, q. split; [reflexivity |].
  destruct (lyric_block_syllables 9 p q syllables E) as [_ F].
  split; [| exact F].
  vm_compute in E. injection E as <- _. reflexivity.
Defined.

Lemma lyricSlots_exhausted (n : nat) (p : PState) :
  readLEShort true p = Raise StructError ->
  NWCStaff.lyricSlots n p = Ok ([], p).
Proof.
  intros E. induction n as [| n IH]; cbn [NWCStaff.lyricSlots].
  - reflexivity.
  - unfold bind at 1, NWCStaff.readBlockSize. rewrite E.
    change (0 <? 0) with false. cbv iota. exact IH.
Qed.

Lemma lyricSlots_split (k j : nat) :
  forall p0 l p,
    NWCStaff.lyricSlots k p0 = Ok (l, p) ->
    NWCStaff.lyricSlots (k + j) p0
    = match NWCStaff.lyricSlots j p with
      | Ok (l', q) => Ok ((l ++ l')%list, q)
      | r => r
      end.
Proof.
  induction k as [| k IH]; intros p0 l p; cbn [NWCStaff.lyricSlots Nat.add].
  - unfold ret. intros [= <- <-].
    destruct (NWCStaff.lyricSlots j p0) as [[l' q] | |]; reflexivity.
  - intros H. apply bind_Ok in H as (size & p1 & E & H).
    unfold bind at 1. rewrite E.
    destruct (0 <? size).
    + apply bind_Ok in H as (syl & p2 & E2 & H).
      apply bind_Ok in H as (l1 & p3 & E3 & H).
      unfold ret in H. injection H as <- <-.
      unfold bind at 1. rewrite E2.
      unfold bind at 1. rewrite (IH _ _ _ E3).
      destruct (NWCStaff.lyricSlots j p3) as [[l' q] | |]; reflexivity.
    + exact (IH _ _ _ H).
Qed.

(** The recovery of a failed block-size read does not save the decode: if
    the size field of any lyric slot cannot be read, the slot and all the
    later ones count as empty without moving the cursor, and the read of
    the trailing short then raises [struct.error].  The same holds when
    there is no lyric slot at all and fewer than two bytes remain. *)
Theorem parseLyrics_truncated (k m : nat) (p0 p : PState) (l : list (list bytes)) :
  NWCStaff.lyricSlots k p0 = Ok (l, p) ->
  readLEShort true p = Raise StructError ->
  NWCStaff.lyricSlots (k + S m) p0 = Ok (l, p)
  /\ NWCStaff.parseLyrics (Z.of_nat (k + S m)) p0 = Raise StructError
  /\ (forall n, n <= 0 -> NWCStaff.parseLyrics n p = Raise StructError).
Proof.
  intros Hk E.
  assert (S1 : NWCStaff.lyricSlots (k + S m) p0 = Ok (l, p)).
  { rewrite (lyricSlots_split _ (S m) _ _ _ Hk).
    rewrite (lyricSlots_exhausted _ _ E). rewrite app_nil_r. reflexivity. }
  split; [exact S1 |]. split.
  - unfold NWCStaff.parseLyrics. rewrite Nat2Z.id.
    unfold bind at 1. rewrite S1.
    destruct (Z.ltb_spec 0 (Z.of_nat (k + S m))); [| lia].
    unfold bind. rewrite E. reflexivity.
  - intros n Hn. unfold NWCStaff.parseLyrics.
    replace (Z.to_nat n) with 0%nat by lia.
    cbn [NWCStaff.lyricSlots]. unfold bind at 1, ret.
    destruct (Z.ltb_spec 0 n); [lia |].
    unfold bind. rewrite E. reflexivity.
Qed.

Lemma parseLyrics_truncated_witness :
  let p0 := mkPState [x00; x00; x07] 0 175 PNone in
  NWCStaff.parseLyrics 3 p0 = Raise StructError.
Proof.
  intros p0.
  destruct (parseLyrics_truncated 1 1 p0 (set_pp p0 2) []) as (_ & H & _).
  - reflexivity.
  - reflexivity.
  - exact H.
Defined.

(** ** The record decoders, step by step *)

Lemma byteToSignedInt_Ok (p q : PState) (v : Z) :
  byteToSignedInt true p = Ok (v, q) ->
  q = set_pp p (parsePosition p + 1) /\ -128 <= v <= 127.
Proof.
  intros H. apply bind_Ok in H as (b & p1 & E & H).
  apply byteToInt_Ok in E as [-> R].
  unfold ret in H. injection H as <- <-.
  split; [reflexivity |]. destruct (Z.ltb_spec 127 b); lia.
Qed.

Lemma readBytes_Ok (n : Z) (p q : PState) (v : bytes) :
  readBytes n true p = Ok (v, q) ->
  q = set_pp p (parsePosition p + n)
  /\ v = slice (fileContents p) (parsePosition p) (parsePosition p + n).
Proof. unfold readBytes. intros [= <- <-]. split; reflexivity. Qed.

Lemma readToNUL_Ok (p q : PState) (v : bytes) :
  readToNUL true p = Ok (v, q) -> exists x, q = set_pp p x.
Proof.
  cbv beta zeta delta [readToNUL]. intros [= _ <-]. eauto.
Qed.

Lemma skipBytes_Ok (n : Z) (p q : PState) (u : unit) :
  skipBytes n p = Ok (u, q) -> q = set_pp p (parsePosition p + n).
Proof. unfold skipBytes. destruct u. intros [= <-]. reflexivity. Qed.

Lemma getVersion_Ok (p q : PState) (v : Z) :
  NWCObject.getVersion p = Ok (v, q) -> q = p /\ v = version p.
Proof. unfold NWCObject.getVersion. intros [= <- <-]. split; reflexivity. Qed.

Lemma lift_Ok {A} (r : result A) (p q : PState) (a : A) :
  lift r p = Ok (a, q) -> q = p /\ r = Ok a.
Proof.
  unfold lift. destruct r; intros [=]; subst. split; reflexivity.
Qed.

Lemma ret_Ok {A} (a b : A) (p q : PState) :
  ret a p = Ok (b, q) -> q = p /\ b = a.
Proof. unfold ret. intros [= <- <-]. split; reflexivity. Qed.

Lemma setDurationForObject_Ok (isNote : bool) (duration : Z)
    (attribute1 data2 : option bytes) (p q : PState) (r : Z * Z * string) :
  NWCObject.setDurationForObject isNote duration attribute1 data2 p = Ok (r, q) ->
  q = p
  /\ (0 <= snd (fst r) <= 2
      /\ exists name, getitem NWCObject.durationValues duration = Ok name).
Proof.
  unfold NWCObject.setDurationForObject. intros H.
  apply bind_Ok in H as (durStr & p1 & E1 & H). apply lift_Ok in E1 as [-> G].
  apply bind_Ok in H as (dg & p2 & E2 & H).
  assert (p2 = p) as ->.
  { destruct isNote.
    - apply bind_Ok in E2 as (d & p3 & E3 & E2). apply lift_Ok in E3 as [-> _].
      apply bind_Ok in E2 as (a & p4 & E4 & E2). apply lift_Ok in E4 as [-> _].
      apply ret_Ok in E2 as [-> _]. reflexivity.
    - apply bind_Ok in E2 as (d & p3 & E3 & E2). apply lift_Ok in E3 as [-> _].
      apply ret_Ok in E2 as [-> _]. reflexivity. }
  cbv zeta in H. apply ret_Ok in H as [-> ->]. split; [reflexivity |].
  split; [| eauto].
  cbn [fst snd]. destruct (0 <? Z.land (fst dg) 1); [lia |].
  destruct (0 <? Z.land (fst dg) 4); lia.
Qed.

(** Turns the equation of one primitive call into its effect on the
    state. *)
Ltac prim E :=
  first
    [ apply readLEShort_Ok in E; subst
    | apply byteToInt_Ok in E as [-> ?]
    | apply byteToSignedInt_Ok in E as [-> ?]
    | apply readBytes_Ok in E as [-> ->]
    | apply skipBytes_Ok in E; subst
    | apply getVersion_Ok in E as [-> ->]
    | apply lift_Ok in E as [-> ?]
    | apply setDurationForObject_Ok in E as [-> ?]
    | apply ret_Ok in E as [-> ->]
    | apply readToNUL_Ok in E as [? ->]
    | discriminate E ].

(** Runs a decoder symbolically, keeping the state after every call. *)
Ltac run H :=
  cbv beta zeta in H;
  repeat
    match type of H with
    | bind _ _ _ = Ok _ =>
        let E := fresh "E" in
        apply bind_Ok in H as (? & ? & E & H);
        cbv beta zeta in H; cbv beta zeta in E; run E
    | (if ?c then _ else _) _ = Ok _ => destruct c eqn:?
    | (match ?x with _ => _ end) _ = Ok _ => is_var x; destruct x
    | _ => prim H
    end.

Section Records.
Context {C : Constants}.

(** From version 170 on, each decoder of a fixed layout consumes the
    number of bytes its docstring gives: Clef 4, KeySig 10, Barline 2,
    Ending 2, TimeSignature 6, Dynamic 7, Rest 8, Pedal 3, FlowDir 4,
    TempoVariation 4, DynamicVariation 3, Performance 3,
    RestChordMember 10.  The MIDI instruction record takes 34 bytes in
    version 175 and 33 in the other versions from 170 on. *)
Theorem record_lengths (parent : NWCObject.Parent) (visible : Z)
    (p q : PState) (o : NWCObject.t) :
  170 <= version p ->
  let consumed := parsePosition q - parsePosition p in
  (NWCObject.clef parent visible p = Ok (o, q) -> consumed = 4)
  /\ (NWCObject.keySig parent visible p = Ok (o, q) -> consumed = 10)
  /\ (NWCObject.barline parent visible p = Ok (o, q) -> consumed = 2)
  /\ (NWCObject.ending parent visible p = Ok (o, q) -> consumed = 2)
  /\ (NWCObject.timeSig parent visible p = Ok (o, q) -> consumed = 6)
  /\ (NWCObject.dynamic parent visible p = Ok (o, q) -> consumed = 7)
  /\ (NWCObject.rest parent visible p = Ok (o, q) -> consumed = 8)
  /\ (NWCObject.pedal parent visible p = Ok (o, q) -> consumed = 3)
  /\ (NWCObject.flowDir parent visible p = Ok (o, q) -> consumed = 4)
  /\ (NWCObject.tempoVariation parent visible p = Ok (o, q) -> consumed = 4)
  /\ (NWCObject.dynamicVariation parent visible p = Ok (o, q) -> consumed = 3)
  /\ (NWCObject.performance parent visible p = Ok (o, q) -> consumed = 3)
  /\ (NWCObject.restChordMember parent visible p = Ok (o, q) -> consumed = 10)
  /\ (NWCObject.mpc parent visible p = Ok (o, q) ->
      consumed = if version p =? 175 then 34 else 33).
Proof.
  intros Hv consumed. subst consumed.
  repeat split; intros H;
    first [ progress unfold NWCObject.clef in H | progress unfold NWCObject.keySig in H
          | progress unfold NWCObject.barline in H | progress unfold NWCObject.ending in H
          | progress unfold NWCObject.timeSig in H | progress unfold NWCObject.dynamic in H
          | progress unfold NWCObject.rest in H | progress unfold NWCObject.pedal in H
          | progress unfold NWCObject.flowDir in H | progress unfold NWCObject.tempoVariation in H
          | progress unfold NWCObject.dynamicVariation in H
          | progress unfold NWCObject.performance in H
          | progress unfold NWCObject.restChordMember in H | progress unfold NWCObject.mpc in H ];
    run H; cbn [parsePosition set_pp version] in *;
    repeat match goal with
           | |- context [if ?c then _ else _] => destruct c eqn:?
           end;
    repeat match goal with
           | E : (_ <? _) = true |- _ => apply Z.ltb_lt in E
           | E : (_ <? _) = false |- _ => apply Z.ltb_ge in E
           | E : (_ <=? _) = true |- _ => apply Z.leb_le in E
           | E : (_ <=? _) = false |- _ => apply Z.leb_gt in E
           | E : (_ =? _) = true |- _ => apply Z.eqb_eq in E
           | E : (_ =? _) = false |- _ => apply Z.eqb_neq in E
           end;
    try lia.
Qed.

End Records.

(** ** Bit flags *)

Lemma land_pow2 (x k : Z) :
  0 <= k -> Z.land x (2 ^ k) = if Z.testbit x k then 2 ^ k else 0.
Proof.
  intros Hk. apply Z.bits_inj'. intros i Hi.
  rewrite Z.land_spec, Z.pow2_bits_eqb by lia.
  destruct (Z.eqb_spec k i) as [-> | Hne].
  - destruct (Z.testbit x i) eqn:T; cbn [andb].
    + rewrite Z.pow2_bits_true by lia. reflexivity.
    + rewrite Z.bits_0. reflexivity.
  - rewrite andb_false_r.
    destruct (Z.testbit x k).
    + rewrite Z.pow2_bits_false by lia. reflexivity.
    + rewrite Z.bits_0. reflexivity.
Qed.

Lemma land_pow2_pos (x k : Z) :
  0 <= k -> (0 <? Z.land x (2 ^ k)) = Z.testbit x k.
Proof.
  intros Hk. rewrite land_pow2 by exact Hk.
  assert (0 < 2 ^ k) by (apply Z.pow_pos_nonneg; lia).
  destruct (Z.testbit x k); [apply Z.ltb_lt; lia | reflexivity].
Qed.

Lemma land_pow2_zero (x k : Z) :
  0 <= k -> (Z.land x (2 ^ k) =? 0) = negb (Z.testbit x k).
Proof.
  intros Hk. rewrite land_pow2 by exact Hk.
  assert (0 < 2 ^ k) by (apply Z.pow_pos_nonneg; lia).
  destruct (Z.testbit x k); [apply Z.eqb_neq; lia | reflexivity].
Qed.

Lemma append_empty_r (s : string) : s +:+ "" = s.
Proof.
  induction s as [| c s IH]; [reflexivity |].
  change (String c (s +:+ "") = String c s). f_equal. exact IH.
Qed.

(** [setDurationForObject] for a Note whose duration index is in 0..6:
    the duration name comes from the table; bit 0 of the first attribute
    byte gives two dots, otherwise bit 2 gives one dot, otherwise none;
    bit 5 of the second attribute byte marks a grace note.  A duration
    index above 6 raises [IndexError]. *)
Theorem duration_of_note (duration : Z) (a0 a1 : byte) (data2 : option bytes)
    (p : PState) :
  0 <= duration ->
  (duration <= 6 ->
   exists name,
     NWCObject.durationValues !! Z.to_nat duration = Some name
     /\ NWCObject.setDurationForObject true duration (Some [a0; a1]) data2 p
        = Ok ((b2z a0,
               (if Z.testbit (b2z a0) 0 then 2
                else if Z.testbit (b2z a0) 2 then 1 else 0),
               (name
                +:+ (if Z.testbit (b2z a0) 0 then ",DblDotted"
                     else if Z.testbit (b2z a0) 2 then ",Dotted" else ""))
               +:+ (if Z.testbit (b2z a1) 5 then ",Grace" else "")), p))
  /\ (6 < duration ->
      NWCObject.setDurationForObject true duration (Some [a0; a1]) data2 p
      = Raise IndexError).
Proof.
  intros H0. split.
  - intros H6.
    destruct (NWCObject.durationValues !! Z.to_nat duration) as [name |] eqn:L.
    2:{ apply lookup_ge_None in L. simpl in L. lia. }
    exists name. split; [reflexivity |].
    assert (G0 : NWCObject.getitem_opt (Some [a0; a1]) 0 = Ok (b2z a0))
      by reflexivity.
    assert (G1 : NWCObject.getitem_opt (Some [a0; a1]) 1 = Ok (b2z a1))
      by reflexivity.
    unfold NWCObject.setDurationForObject, bind, lift, ret.
    rewrite (getitem_lookup _ duration _ H0 L), G0, G1.
    cbv zeta. cbn [fst snd].
    change (Z.land (b2z a0) 1) with (Z.land (b2z a0) (2 ^ 0)).
    change (Z.land (b2z a0) 4) with (Z.land (b2z a0) (2 ^ 2)).
    change (Z.land (b2z a1) 32) with (Z.land (b2z a1) (2 ^ 5)).
    rewrite !land_pow2_pos by lia.
    destruct (Z.testbit (b2z a0) 0), (Z.testbit (b2z a0) 2),
      (Z.testbit (b2z a1) 5); cbn [Z.eqb Pos.eqb];
      rewrite ?append_empty_r; reflexivity.
  - intros H6. unfold NWCObject.setDurationForObject, bind, lift, getitem.
    destruct (Z.ltb_spec duration 0); [lia |].
    destruct (Z.ltb_spec duration 0); [lia |].
    destruct (Z.leb_spec (Z.of_nat (length NWCObject.durationValues)) duration);
      [reflexivity | simpl in *; lia].
Qed.

Lemma getitem_Ok {A} (l : list A) (i : Z) (x : A) :
  getitem l i = Ok x -> -len l <= i < len l /\ In x l.
Proof.
  unfold getitem, len.
  destruct (Z.ltb_spec i 0).
  - destruct (Z.ltb_spec (i + Z.of_nat (length l)) 0); [discriminate |].
    destruct (Z.leb_spec (Z.of_nat (length l)) (i + Z.of_nat (length l)));
      [discriminate |].
    cbn [orb]. destruct (l !! _) eqn:L; [| discriminate].
    intros [= <-]. split; [lia |].
    apply list_elem_of_In. eapply list_elem_of_lookup_2. exact L.
  - destruct (Z.ltb_spec i 0); [lia |].
    destruct (Z.leb_spec (Z.of_nat (length l)) i); [discriminate |].
    cbn [orb]. destruct (l !! _) eqn:L; [| discriminate].
    intros [= <-]. split; [lia |].
    apply list_elem_of_In. eapply list_elem_of_lookup_2. exact L.
Qed.

(** The Note decoder returns only from version 170 on (below, it raises
    on the attributes it never read).  The record it returns has a
    duration index in 0..6, a position in -127..128 (the negated signed
    byte), an alteration from the table of six, and a tie mark that is
    empty or [^]; it consumes 8 bytes, 2 more in version 170 (the extra
    data) and 1 more from version 200 on when bit 0x40 of the second
    attribute byte announces a stem length. *)
Theorem note_record (parent : NWCObject.Parent) (visible : Z)
    (p q : PState) (o : NWCObject.t) :
  NWCObject.note parent visible p = Ok (o, q) ->
  170 <= version p
  /\ exists duration data2 attribute1 pos attribute2 data3 stemLength
            dotAttribute dots durationStr alterationStr tieInfo,
       o = NWCObject.Note visible duration data2 attribute1 pos attribute2
             data3 stemLength dotAttribute dots durationStr alterationStr
             tieInfo
       /\ 0 <= duration <= 6
       /\ -127 <= pos <= 128
       /\ 0 <= dots <= 2
       /\ In alterationStr NWCObject.alterationTexts
       /\ (tieInfo = "" \/ tieInfo = "^")
       /\ (data3 = None <-> 170 < version p)
       /\ parsePosition q
          = parsePosition p + 8
            + (if version p <=? 170 then 2 else 0)
            + (if (200 <=? version p) && negb (Z.land attribute2 0x40 =? 0)
               then 1 else 0).
Proof.
  intros H. unfold NWCObject.note in H.
  apply bind_Ok in H as (v & p0 & Ev & H). apply getVersion_Ok in Ev as [-> ->].
  destruct (Z.ltb_spec (version p) 170) as [Hv | Hv].
  { apply bind_Ok in H as (r & p1 & E & H). discriminate H. }
  split; [exact Hv |].
  apply bind_Ok in H as (duration & p1 & E1 & H).
  apply byteToInt_Ok in E1 as [-> Hd].
  apply bind_Ok in H as (data2 & p2 & E2 & H).
  apply readBytes_Ok in E2 as [-> ->].
  apply bind_Ok in H as (attribute1 & p3 & E3 & H).
  apply readBytes_Ok in E3 as [-> ->].
  apply bind_Ok in H as (sp & p4 & E4 & H).
  apply byteToSignedInt_Ok in E4 as [-> Hsp].
  cbv zeta in H.
  apply bind_Ok in H as (attribute2 & p5 & E5 & H).
  apply byteToInt_Ok in E5 as [-> Ha2].
  apply bind_Ok in H as (data3 & p6 & E6 & H).
  apply bind_Ok in H as (stemLength & p7 & E7 & H).
  apply bind_Ok in H as ([[dotAttribute dots] durationStr] & p8 & E8 & H).
  apply setDurationForObject_Ok in E8 as (-> & Hdots & name & Hname).
  cbn [fst snd] in Hdots.
  apply getitem_Ok in Hname as [Hdur _]. unfold len in Hdur. simpl in Hdur.
  cbv zeta in H.
  apply bind_Ok in H as (alterationStr & p9 & E9 & H).
  apply bind_Ok in H as (ordAtt1 & p10 & E10 & H).
  apply lift_Ok in E10 as [-> _].
  apply ret_Ok in H as [-> ->].
  assert (Halt : p9 = p7 /\ In alterationStr NWCObject.alterationTexts).
  { destruct (_ <? _).
    - apply lift_Ok in E9 as [-> G]. apply getitem_Ok in G as [_ G].
      split; [reflexivity | exact G].
    - apply ret_Ok in E9 as [-> ->]. split; [reflexivity |].
      simpl. tauto. }
  destruct Halt as [-> Halt].
  assert (H3 : (data3 = None <-> 170 < version p)
               /\ parsePosition p6
                  = parsePosition p + 8 + (if version p <=? 170 then 2 else 0)).
  { destruct (Z.leb_spec (version p) 170).
    - apply bind_Ok in E6 as (d & p' & Er & E6).
      apply readBytes_Ok in Er as [-> ->]. apply ret_Ok in E6 as [-> ->].
      split; [split; [discriminate | lia] |].
      cbn [parsePosition set_pp]. lia.
    - apply ret_Ok in E6 as [-> ->].
      split; [split; [lia | reflexivity] |].
      cbn [parsePosition set_pp]. lia. }
  destruct H3 as [H3 Hpos].
  assert (H7 : parsePosition p7
               = parsePosition p6
                 + (if (200 <=? version p) && negb (Z.land attribute2 0x40 =? 0)
                    then 1 else 0)).
  { destruct (200 <=? version p); cbn [andb].
    - destruct (negb _).
      + apply byteToInt_Ok in E7 as [-> _]. reflexivity.
      + apply ret_Ok in E7 as [-> _]. lia.
    - apply ret_Ok in E7 as [-> _]. lia. }
  eexists _, _, _, _, _, _, _, _, _, _, _, _.
  split; [reflexivity |].
  split; [lia |]. split; [lia |]. split; [exact Hdots |].
  split; [exact Halt |].
  split; [destruct (0 <? _); tauto |].
  split; [exact H3 |]. lia.
Qed.

Lemma note_record_witness :
  let p := mkPState [x02; x00; x00; x00; x14; x00; xfd; x00] 0 175 PNone in
  NWCObject.note NWCObject.StaffParent 0 p
  = Ok (NWCObject.Note 0 2 [x00; x00; x00] [x14; x00] 3 0 None 7 20 1
          "4th,Dotted" "#" "^", set_pp p 8).
Proof.
  intros p.
  destruct (NWCObject.note NWCObject.StaffParent 0 p) as [[o q] | |] eqn:E;
    try (vm_compute in E; discriminate).
  destruct (note_record NWCObject.StaffParent 0 p q o E) as [_ _].
  vm_compute in E. injection E as <- <-. reflexivity.
Defined.

(** ** What decoding leaves alone *)

Lemma get_Ok (p q a : PState) : get p = Ok (a, q) -> q = p /\ a = p.
Proof. unfold get. intros [= <- <-]. split; reflexivity. Qed.

Lemma put_Ok (x p q : PState) (u : unit) : put x p = Ok (u, q) -> q = x.
Proof. unfold put. destruct u. intros [= <-]. reflexivity. Qed.

Lemma frame_refl (c : bool) (p : PState) : frame c p p.
Proof. unfold frame. auto. Qed.

Lemma frame_pp (c : bool) (p q : PState) (x : Z) :
  frame c p q -> frame c p (set_pp q x).
Proof. unfold frame. cbn. auto. Qed.

Lemma frame_strict_trans (c : bool) (p q r : PState) :
  frame false p q -> frame c q r -> frame c p r.
Proof.
  unfold frame. intros (F1 & V1 & [L1 | (? & _)]) (F2 & V2 & L2);
    [| discriminate].
  split; [congruence |]. split; [congruence |].
  destruct L2 as [L2 | (Hc & L2 & s & Hs)].
  - left. congruence.
  - right. split; [exact Hc |]. split; [congruence | eauto].
Qed.

Lemma repeatM_frame {A} (body : M A) (n : nat) :
  (forall p a q, body p = Ok (a, q) -> frame false p q) ->
  forall p l q, repeatM n body p = Ok (l, q) -> frame false p q.
Proof.
  intros Hb. induction n as [| n IH]; intros p l q H; cbn [repeatM] in H.
  - apply ret_Ok in H as [-> _]. apply frame_refl.
  - apply bind_Ok in H as (x & p1 & E1 & H).
    apply bind_Ok in H as (xs & p2 & E2 & H).
    apply ret_Ok in H as [-> _].
    eapply frame_strict_trans; [eapply Hb; exact E1 | eapply IH; exact E2].
Qed.

Section Frame.
Context {C : Constants}.

Lemma objMethods_frame (rec : NWCObject.Parent -> M NWCObject.t) (i : nat)
    (objectMethod : NWCObject.Parent -> Z -> M NWCObject.t)
    (parent : NWCObject.Parent) (visible : Z) (p q : PState) (o : NWCObject.t) :
  (forall p a q, rec NWCObject.ObjectParent p = Ok (a, q) -> frame false p q) ->
  NWCObject.objMethods rec !! i = Some objectMethod ->
  objectMethod parent visible p = Ok (o, q) ->
  frame (ofStaff parent) p q.
Proof.
  intros Hrec Hi H.
  do 19 (try destruct i as [| i]); try discriminate Hi;
    injection Hi as <-.
  all: first [ progress unfold NWCObject.clef in H
             | progress unfold NWCObject.keySig in H
             | progress unfold NWCObject.barline in H
             | progress unfold NWCObject.ending in H
             | progress unfold NWCObject.instrument in H
             | progress unfold NWCObject.timeSig in H
             | progress unfold NWCObject.tempo in H
             | progress unfold NWCObject.dynamic in H
             | progress unfold NWCObject.note in H
             | progress unfold NWCObject.rest in H
             | progress unfold NWCObject.noteChordMember in H
             | progress unfold NWCObject.pedal in H
             | progress unfold NWCObject.flowDir in H
             | progress unfold NWCObject.mpc in H
             | progress unfold NWCObject.tempoVariation in H
             | progress unfold NWCObject.dynamicVariation in H
             | progress unfold NWCObject.performance in H
             | progress unfold NWCObject.textObj in H
             | progress unfold NWCObject.restChordMember in H ].
  11: { (* NoteChordMember *)
    apply bind_Ok in H as (v & p0 & Ev & H). apply getVersion_Ok in Ev as [-> ->].
    apply bind_Ok in H as (dn & p1 & E1 & H).
    apply bind_Ok in H as (stem & p2 & E2 & H).
    apply bind_Ok in H as (children & p3 & E3 & H).
    apply ret_Ok in H as [-> _].
    assert (F1 : frame false p p1) by
      (run E1; repeat apply frame_pp; apply frame_refl).
    assert (F2 : frame false p1 p2) by
      (run E2; repeat apply frame_pp; apply frame_refl).
    pose proof (repeatM_frame _ _ Hrec _ _ _ E3) as F3.
    eapply frame_strict_trans; [exact F1 |].
    eapply frame_strict_trans; [exact F2 |].
    destruct F3 as (? & ? & [? | (? & _)]); [| discriminate].
    unfold frame. auto. }
  17: { (* Text *)
    apply bind_Ok in H as (a & p1 & E1 & H). apply byteToInt_Ok in E1 as [-> _].
    apply bind_Ok in H as (b & p2 & E2 & H). apply byteToInt_Ok in E2 as [-> _].
    apply bind_Ok in H as (c & p3 & E3 & H). apply byteToInt_Ok in E3 as [-> _].
    apply bind_Ok in H as (t & p4 & E4 & H). apply readToNUL_Ok in E4 as [x ->].
    destruct parent; [| discriminate H].
    apply bind_Ok in H as (g & p5 & E5 & H). apply get_Ok in E5 as [-> ->].
    cbn [staffLabel set_pp] in H.
    destruct (staffLabel p) eqn:L.
    - apply bind_Ok in H as (u & p6 & E6 & H). apply put_Ok in E6 as ->.
      apply ret_Ok in H as [-> _].
      unfold frame. cbn. split; [reflexivity |]. split; [reflexivity |].
      right. rewrite L. split; [reflexivity |]. split; [reflexivity | eauto].
    - apply ret_Ok in H as [-> _]. repeat apply frame_pp. apply frame_refl.
    - apply ret_Ok in H as [-> _]. repeat apply frame_pp. apply frame_refl.
    - apply ret_Ok in H as [-> _]. repeat apply frame_pp. apply frame_refl. }
  all: run H; repeat apply frame_pp; apply frame_refl.
Qed.

Lemma parseObject_frame (fuel : nat) :
  forall parent p o q,
    NWCObject.parseObject fuel parent p = Ok (o, q) ->
    frame (ofStaff parent) p q.
Proof.
  induction fuel as [| fuel IH]; intros parent p o q H;
    cbn [NWCObject.parseObject] in H; [discriminate |].
  apply bind_Ok in H as (objectType & p1 & E1 & H).
  apply readLEShort_Ok in E1 as ->.
  destruct (_ || _); [discriminate H |].
  apply bind_Ok in H as (v & p2 & E2 & H). apply getVersion_Ok in E2 as [-> ->].
  apply bind_Ok in H as (visible & p3 & E3 & H).
  apply bind_Ok in H as (objectMethod & p4 & E4 & H).
  apply lift_Ok in E4 as [-> G].
  assert (F3 : frame false p p3).
  { cbn [version set_pp] in E3. destruct (_ <=? _).
    - apply byteToInt_Ok in E3 as [-> _]. repeat apply frame_pp. apply frame_refl.
    - apply ret_Ok in E3 as [-> _]. repeat apply frame_pp. apply frame_refl. }
  eapply frame_strict_trans; [exact F3 |].
  unfold getitem in G.
  destruct (_ || _); [discriminate |].
  destruct (_ !! _) as [m |] eqn:L; [| discriminate]. injection G as <-.
  eapply objMethods_frame; [| exact L | exact H].
  intros p' a q' H'. apply (IH NWCObject.ObjectParent) in H'. exact H'.
Qed.

(** Decoding the records of a staff never changes the buffer or the
    version, and the staff label is written at most once: a label that is
    set when the decoding starts is still the same when it ends. *)
Theorem parseObjects_frame (fuel : nat) (p q : PState)
    (r : Z * list NWCObject.t) :
  NWCStaff.parseObjects fuel p = Ok (r, q) ->
  fileContents q = fileContents p
  /\ version q = version p
  /\ (staffLabel p <> PNone -> staffLabel q = staffLabel p).
Proof.
  intros H. unfold NWCStaff.parseObjects in H.
  apply bind_Ok in H as (n & p1 & E1 & H). apply readLEShort_Ok in E1 as ->.
  apply bind_Ok in H as (v & p2 & E2 & H). apply getVersion_Ok in E2 as [-> ->].
  cbv zeta in H.
  apply bind_Ok in H as (objects & p3 & E3 & H).
  apply ret_Ok in H as [-> _].
  revert E3. generalize (Z.to_nat (if 150 <? version (set_pp p (parsePosition p + 2))
                                   then n - 2 else n)).
  intros k. revert objects p3.
  assert (G : forall k p0 objects p3,
            repeatM k (NWCObject.parseObject fuel NWCObject.StaffParent) p0
            = Ok (objects, p3) ->
            fileContents p3 = fileContents p0 /\ version p3 = version p0
            /\ (staffLabel p0 <> PNone -> staffLabel p3 = staffLabel p0)).
  { clear. induction k as [| k IH]; intros p0 objects p3 H; cbn [repeatM] in H.
    - apply ret_Ok in H as [-> _]. auto.
    - apply bind_Ok in H as (x & p1 & E1 & H).
      apply bind_Ok in H as (xs & p2 & E2 & H).
      apply ret_Ok in H as [-> _].
      apply parseObject_frame in E1 as (F1 & V1 & L1).
      apply IH in E2 as (F2 & V2 & L2).
      split; [congruence |]. split; [congruence |].
      intros Hne.
      destruct L1 as [L1 | (_ & L1 & _)]; [| contradiction].
      rewrite L2 by congruence. exact L1. }
  intros objects p3 E3. apply G in E3. exact E3.
Qed.

End Frame.

(** ** Nesting *)

Lemma bind_fuel {A B} (m : M A) (k : A -> M B) (p : PState) :
  m p <> OutOfFuel ->
  (forall a q, m p = Ok (a, q) -> k a q <> OutOfFuel) ->
  bind m k p <> OutOfFuel.
Proof.
  intros Hm Hk. unfold bind.
  destruct (m p) as [[a q] | e |]; [eauto | discriminate | contradiction].
Qed.

Lemma byteToInt_fuel (u : bool) (p : PState) : byteToInt u p <> OutOfFuel.
Proof.
  unfold byteToInt, ord.
  destruct (slice _ _ _) as [| b0 [| b1 r]]; discriminate.
Qed.

Lemma byteToSignedInt_fuel (u : bool) (p : PState) :
  byteToSignedInt u p <> OutOfFuel.
Proof.
  apply bind_fuel; [apply byteToInt_fuel | discriminate].
Qed.

Lemma getitem_fuel {A} (l : list A) (i : Z) : getitem l i <> OutOfFuel.
Proof.
  unfold getitem. destruct (_ || _); [discriminate |].
  destruct (_ !! _); discriminate.
Qed.

Lemma getitem_opt_fuel (s : option bytes) (i : Z) :
  NWCObject.getitem_opt s i <> OutOfFuel.
Proof.
  unfold NWCObject.getitem_opt. destruct s; [| discriminate].
  pose proof (getitem_fuel l i). destruct (getitem l i); congruence.
Qed.

Lemma lift_fuel {A} (r : result A) (p : PState) :
  r <> OutOfFuel -> lift r p <> OutOfFuel.
Proof. unfold lift. destruct r; congruence. Qed.

(** Shows that a decoder made of primitive calls returns or raises. *)
Ltac nofuel :=
  repeat first
    [ apply bind_fuel; [| intros ? ? _]
    | apply readLEShort_fuel
    | apply byteToInt_fuel
    | apply byteToSignedInt_fuel
    | apply lift_fuel; first [apply getitem_fuel | apply getitem_opt_fuel]
    | match goal with
      | |- (if ?c then _ else _) _ <> OutOfFuel => destruct c
      | |- (match ?x with _ => _ end) _ <> OutOfFuel => is_var x; destruct x
      | |- (match ?x with _ => _ end) <> OutOfFuel => is_var x; destruct x
      end
    | discriminate ].

Section Nesting.
Context {C : Constants}.

Lemma setDurationForObject_fuel (isNote : bool) (duration : Z)
    (attribute1 data2 : option bytes) (p : PState) :
  NWCObject.setDurationForObject isNote duration attribute1 data2 p <> OutOfFuel.
Proof.
  unfold NWCObject.setDurationForObject. cbv zeta.
  destruct isNote; nofuel.
Qed.

Lemma objMethods_fuel (rec : NWCObject.Parent -> M NWCObject.t)
    (objectMethod : NWCObject.Parent -> Z -> M NWCObject.t)
    (parent : NWCObject.Parent) (visible : Z) (p : PState) :
  version p <> 175 ->
  In objectMethod (NWCObject.objMethods rec) ->
  objectMethod parent visible p <> OutOfFuel.
Proof.
  intros Hv Hin. cbn [NWCObject.objMethods In] in Hin.
  repeat (destruct Hin as [<- | Hin]); [.. | contradiction].
  11: { (* NoteChordMember *)
    unfold NWCObject.noteChordMember.
    apply bind_fuel; [discriminate |]. intros v q Ev.
    apply getVersion_Ok in Ev as [-> ->].
    destruct (Z.eqb_spec (version p) 175); [contradiction |].
    destruct (version p <=? 170).
    - unfold bind at 1 2. cbn [readBytes ret fst snd].
      apply bind_fuel; [nofuel |]. intros s q _.
      cbn [Z.to_nat repeatM]. discriminate.
    - unfold bind at 1 2. cbn [readBytes ret fst snd].
      apply bind_fuel; [nofuel |]. intros s q _.
      cbn [Z.to_nat repeatM]. discriminate. }
  all: first [ unfold NWCObject.clef | unfold NWCObject.keySig
             | unfold NWCObject.barline | unfold NWCObject.ending
             | unfold NWCObject.instrument | unfold NWCObject.timeSig
             | unfold NWCObject.tempo | unfold NWCObject.dynamic
             | unfold NWCObject.note | unfold NWCObject.rest
             | unfold NWCObject.pedal | unfold NWCObject.flowDir
             | unfold NWCObject.mpc | unfold NWCObject.tempoVariation
             | unfold NWCObject.dynamicVariation | unfold NWCObject.performance
             | unfold NWCObject.textObj | unfold NWCObject.restChordMember ];
    cbv zeta;
    repeat first [ apply setDurationForObject_fuel | progress nofuel ].
  destruct (staffLabel _); nofuel.
Qed.

(** Records nest only in version 175: in every other version the decoder
    of one record returns or raises without ever calling itself, whatever
    the buffer holds. *)
Theorem no_nesting_outside_175 (fuel : nat) (parent : NWCObject.Parent)
    (p : PState) :
  version p <> 175 ->
  NWCObject.parseObject (S fuel) parent p <> OutOfFuel.
Proof.
  intros Hv. cbn [NWCObject.parseObject].
  apply bind_fuel; [apply readLEShort_fuel |]. intros objectType p1 E1.
  apply readLEShort_Ok in E1 as ->.
  destruct (_ || _); [discriminate |].
  apply bind_fuel; [discriminate |]. intros v p2 E2.
  apply getVersion_Ok in E2 as [-> ->].
  apply bind_fuel; [nofuel |]. intros visible p3 E3.
  assert (V3 : version p3 = version p).
  { cbn [version set_pp] in E3. destruct (_ <=? _).
    - apply byteToInt_Ok in E3 as [-> _]. reflexivity.
    - apply ret_Ok in E3 as [-> _]. reflexivity. }
  apply bind_fuel; [apply lift_fuel, getitem_fuel |]. intros m p4 E4.
  apply lift_Ok in E4 as [-> G]. apply getitem_Ok in G as [_ G].
  eapply objMethods_fuel; [congruence | exact G].
Qed.

End Nesting.

Lemma no_nesting_outside_175_witness :
  @NWCObject.parseObject sample_constants 1 NWCObject.StaffParent
    (mkPState [x0a; x00; x00; x00; x00; x00; x00; x00; x00; x00; x00; x05]
       0 170 PNone)
  <> OutOfFuel.
Proof.
  apply (@no_nesting_outside_175 sample_constants 0). simpl. lia.
Defined.

(** ** Staves of a document *)

Section StaffLoop.
Context {C : Constants}.


Lemma isGunshot_false (v : pyval) :
  NWCConverter.isGunshot v = false -> v <> PStr "Gunshot".
Proof. intros H ->. discriminate H. Qed.

(** The staff loop keeps at most one staff per declared staff, and never
    a staff whose instrument name is the text [Gunshot]. *)
Theorem parseStaves_staves (fuel : nat) (groupVisibility : pyval) (n : nat) :
  forall i p staves q,
    NWCConverter.parseStaves fuel groupVisibility i n p = Ok (staves, q) ->
    (length staves <= n)%nat
    /\ Forall (fun s => NWCStaff.instrumentName s <> PStr "Gunshot") staves.
Proof.
  induction n as [| n IH]; intros i p staves q H;
    cbn [NWCConverter.parseStaves] in H.
  - apply ret_Ok in H as [_ ->]. split; [simpl; lia | constructor].
  - apply bind_Ok in H as (visible & p1 & E1 & H).
    destruct visible.
    + apply bind_Ok in H as (s & p2 & E2 & H).
      apply bind_Ok in H as (rest & p3 & E3 & H).
      apply ret_Ok in H as [_ ->].
      apply IH in E3 as [L F].
      destruct (NWCConverter.isGunshot (NWCStaff.instrumentName s)) eqn:G.
      * split; [lia | exact F].
      * split; [simpl; lia |].
        constructor; [apply isGunshot_false; exact G | exact F].
    + apply IH in H as [L F]. split; [lia | exact F].
Qed.

End StaffLoop.

Lemma testbit_byte_high (b : byte) (i : Z) :
  8 <= i -> Z.testbit (b2z b) i = false.
Proof.
  intros Hi. pose proof (b2z_range b).
  apply Z.testbit_false; [lia |].
  rewrite Z.div_small; [reflexivity |].
  split; [lia |].
  apply Z.lt_le_trans with (2 ^ 8); [lia |].
  apply Z.pow_le_mono_r; lia.
Qed.

(** Which staves are decoded: all of them when the group-visibility field
    is empty; with a one-byte field, staff [i] exactly when bit [i] of the
    byte is set, so from the ninth staff on none is; a longer field, or
    the constant [True] that versions below 130 store, raises
    [TypeError]. *)
Theorem staffVisible_bit (i : Z) :
  0 <= i ->
  NWCConverter.staffVisible (PBytes []) i = Ok true
  /\ (forall b, NWCConverter.staffVisible (PBytes [b]) i
                = Ok (Z.testbit (b2z b) i))
  /\ (forall b, 8 <= i -> NWCConverter.staffVisible (PBytes [b]) i = Ok false)
  /\ (forall b0 b1 r,
        NWCConverter.staffVisible (PBytes (b0 :: b1 :: r)) i = Raise TypeError)
  /\ NWCConverter.staffVisible (PBool true) i = Raise TypeError.
Proof.
  intros Hi.
  assert (H1 : forall b, NWCConverter.staffVisible (PBytes [b]) i
                         = Ok (Z.testbit (b2z b) i)).
  { intros b. unfold NWCConverter.staffVisible.
    cbn [NWCConverter.falsy ord].
    rewrite bool_decide_eq_false_2 by discriminate.
    rewrite land_pow2_zero by exact Hi. rewrite negb_involutive. reflexivity. }
  split; [reflexivity |]. split; [exact H1 |]. split.
  - intros b H8. rewrite H1, testbit_byte_high by exact H8. reflexivity.
  - split; [| reflexivity].
    intros b0 b1 r. unfold NWCConverter.staffVisible.
    cbn [NWCConverter.falsy ord].
    rewrite bool_decide_eq_false_2 by discriminate. reflexivity.
Qed.

Lemma staffVisible_bit_witness :
  NWCConverter.staffVisible (PBytes [x05]) 2 = Ok true
  /\ NWCConverter.staffVisible (PBytes [x05]) 1 = Ok false.
Proof.
  destruct (staffVisible_bit 2 ltac:(lia)) as (_ & H2 & _).
  destruct (staffVisible_bit 1 ltac:(lia)) as (_ & H1 & _).
  rewrite H2, H1. split; reflexivity.
Defined.

(** ** Rendering a staff *)

Lemma list_index_spec (x : string) (l : list string) :
  forall i,
    match NWCStaff.list_index x l i with
    | Ok j =>
        i <= j
        /\ l !! Z.to_nat (j - i) = Some x
        /\ forall k, (k < Z.to_nat (j - i))%nat -> l !! k <> Some x
    | Raise e => e = ValueError /\ x ∉ l
    | OutOfFuel => False
    end.
Proof.
  induction l as [| y t IH]; intros i; cbn [NWCStaff.list_index].
  - split; [reflexivity | apply not_elem_of_nil].
  - destruct (bool_decide (x = y)) eqn:D.
    + apply bool_decide_eq_true in D. subst y.
      replace (Z.to_nat (i - i)) with 0%nat by lia.
      split; [lia |]. split; [reflexivity |]. intros k Hk. lia.
    + apply bool_decide_eq_false in D.
      specialize (IH (i + 1)).
      destruct (NWCStaff.list_index x t (i + 1)) as [j | e |].
      * destruct IH as (Hj & L & N).
        replace (Z.to_nat (j - i)) with (S (Z.to_nat (j - (i + 1)))) by lia.
        split; [lia |]. split; [exact L |].
        intros [| k] Hk; cbn; [congruence | apply N; lia].
      * destruct IH as [-> N]. split; [reflexivity |].
        intros [? | ?]%elem_of_cons; [congruence | contradiction].
      * exact IH.
Qed.

Section StaffLines.
Context {C : Constants}.

(** [NWCStaff.dump] returns only for a staff whose instrument name is a
    text found in [MidiInstruments] and whose label is a text or [None].
    The AddStaff line then names the label, or the instrument when there
    is no label, and the StaffInstrument line gives as patch the index of
    the first occurrence of the instrument name in the table. *)
Theorem dump_requirements (s : NWCStaff.t) (m m' : gmap Z string)
    (block : list string) :
  NWCStaff.dump s m = Ok (block, m') ->
  exists instr idx objlines,
    NWCStaff.instrumentName s = PStr instr
    /\ (NWCStaff.label s = PNone \/ exists l, NWCStaff.label s = PStr l)
    /\ 0 <= idx
    /\ MidiInstruments !! Z.to_nat idx = Some instr
    /\ (forall k, (k < Z.to_nat idx)%nat -> MidiInstruments !! k <> Some instr)
    /\ block
       = ("|AddStaff|Name:"
          +:+ match NWCStaff.label s with PStr l => l | _ => instr end)
         :: ("|StaffInstrument" +:+ ("|Name:" +:+ instr)
             +:+ ("|Patch:" +:+ str idx)
             +:+ ("|Trans:" +:+ NWCStaff.str_opt (NWCStaff.transposition s)))
         :: objlines.
Proof.
  unfold NWCStaff.dump.
  destruct (NWCStaff.concat_str "|AddStaff|Name:" _) as [addStaff | |] eqn:E1;
    try discriminate.
  destruct (NWCStaff.concat_str "|Name:" _) as [instru | |] eqn:E2;
    try discriminate.
  destruct (NWCStaff.instrumentName s) as [| | instr |] eqn:EI; try discriminate.
  pose proof (list_index_spec instr MidiInstruments 0) as S.
  destruct (NWCStaff.list_index _ _ _) as [idx | |]; try discriminate.
  destruct S as (H0 & L & N). rewrite Z.sub_0_r in L, N.
  destruct (NWCStaff.dumpObjects _ _ _) as [[ds final] | |]; try discriminate.
  intros [= <- _].
  injection E2 as <-.
  exists instr, idx, ds.
  split; [reflexivity |].
  destruct (NWCStaff.label s) as [| | l |]; try discriminate;
    injection E1 as <-;
    (split; [eauto |]); (split; [exact H0 |]); (split; [exact L |]);
    (split; [exact N | reflexivity]).
Qed.

(** [NWCStaff.dump] raises [TypeError] for a staff whose label or
    instrument name is a byte string (as read from a file of version 200
    or later) and for a staff without instrument name, and [ValueError]
    for an instrument name that is not in [MidiInstruments]. *)
Theorem dump_errors (s : NWCStaff.t) (m : gmap Z string) :
  ((exists b, NWCStaff.label s = PBytes b) -> NWCStaff.dump s m = Raise TypeError)
  /\ ((exists b, NWCStaff.instrumentName s = PBytes b) ->
      NWCStaff.dump s m = Raise TypeError)
  /\ (NWCStaff.instrumentName s = PNone -> NWCStaff.dump s m = Raise TypeError)
  /\ (forall instr,
        NWCStaff.instrumentName s = PStr instr ->
        (NWCStaff.label s = PNone \/ exists l, NWCStaff.label s = PStr l) ->
        instr ∉ MidiInstruments ->
        NWCStaff.dump s m = Raise ValueError).
Proof.
  unfold NWCStaff.dump. repeat split.
  - intros [b ->]. reflexivity.
  - intros [b ->].
    destruct (NWCStaff.label s); reflexivity.
  - intros ->. destruct (NWCStaff.label s); reflexivity.
  - intros instr -> Hl Hnot.
    pose proof (list_index_spec instr MidiInstruments 0) as S.
    destruct (NWCStaff.list_index _ _ _) as [idx | e |].
    + destruct S as (_ & L & _). exfalso. apply Hnot.
      eapply list_elem_of_lookup_2. exact L.
    + destruct S as [-> _].
      destruct Hl as [-> | [l ->]]; reflexivity.
    + contradiction.
Qed.

End StaffLines.

Lemma dump_requirements_witness :
  exists c s block m',
    @NWCConverter.parseContent sample_constants no_decompress 5 docA = Ok c
    /\ NWCConverter.staves c = [s]
    /\ @NWCStaff.dump sample_constants s ∅ = Ok (block, m')
    /\ @MidiInstruments sample_constants !! 0%nat = Some "Acoustic Grand Piano"
    /\ block !! 1%nat
       = Some "|StaffInstrument|Name:Acoustic Grand Piano|Patch:0|Trans:0".
Proof.
  destruct (@NWCConverter.parseContent sample_constants no_decompress 5 docA)
    as [c | |] eqn:E; try (vm_compute in E; discriminate).
  destruct (NWCConverter.staves c) as [| s [| s' r]] eqn:S;
    try (vm_compute in E; injection E as <-; discriminate S).
  destruct (@NWCStaff.dump sample_constants s ∅) as [[block m'] | |] eqn:D;
    try (vm_compute in E; injection E as <-; injection S as <-;
         vm_compute in D; discriminate D).
  exists c, s, block, m'.
  split; [reflexivity |]. split; [exact S |]. split; [exact D |].
  destruct (@dump_requirements sample_constants s ∅ m' block D)
    as (instr & idx & objlines & _).
  split; [reflexivity |].
  vm_compute in E. injection E as <-. injection S as <-.
  vm_compute in D. injection D as <- _. reflexivity.
Defined.

Lemma dump_errors_witness :
  let s := NWCStaff.mk (encode_ascii "Staff") PNone (PStr "Kazoo") [] 0 None
             (Some 0) None None 0 (Some 0) 0 0 0 [] 0 [] in
  @NWCStaff.dump sample_constants s ∅ = Raise ValueError.
Proof.
  intros s.
  destruct (@dump_errors sample_constants s ∅) as (_ & _ & _ & H).
  apply (H "Kazoo" eq_refl (or_introl eq_refl)).
  cbn. intros H'.
  repeat (apply elem_of_cons in H' as [H' | H']; [discriminate H' |]).
  apply elem_of_nil in H'. exact H'.
Defined.

(** ** Rendering a chord *)





Section ChordLines.
Context {C : Constants}.


End ChordLines.

(** ** The document header *)

Lemma fileVersion_Ok (p q : PState) (v : Z) :
  fileVersion true p = Ok (v, q) ->
  q = set_version (set_pp p 47) v
  /\ In v [120; 130; 150; 155; 170; 175; 200; 201].
Proof.
  unfold fileVersion. intros H.
  apply bind_Ok in H as (p0 & p1 & E0 & H). apply get_Ok in E0 as [-> ->].
  apply bind_Ok in H as (u & p2 & E1 & H). apply put_Ok in E1 as ->.
  apply bind_Ok in H as (raw & p3 & E2 & H). apply readLEShort_Ok in E2 as ->.
  apply bind_Ok in H as (p4 & p5 & E3 & H). apply get_Ok in E3 as [-> ->].
  apply bind_Ok in H as (u' & p6 & E4 & H). cbn [negb] in E4.
  apply ret_Ok in E4 as [-> _]. cbv zeta in H.
  apply bind_Ok in H as (p7 & p8 & E5 & H). apply get_Ok in E5 as [-> ->].
  apply bind_Ok in H as (u'' & p9 & E6 & H). apply put_Ok in E6 as ->.
  apply ret_Ok in H as [-> ->].
  split; [reflexivity |].
  destruct (Z.eq_dec raw 0x0114) as [-> | ?]; [cbn; tauto |].
  destruct (Z.eq_dec raw 0x011E) as [-> | ?]; [cbn; tauto |].
  destruct (Z.eq_dec raw 0x0132) as [-> | ?]; [cbn; tauto |].
  destruct (Z.eq_dec raw 0x0137) as [-> | ?]; [cbn; tauto |].
  destruct (Z.eq_dec raw 0x0146) as [-> | ?]; [cbn; tauto |].
  destruct (Z.eq_dec raw 0x014B) as [-> | ?]; [cbn; tauto |].
  destruct (Z.eq_dec raw 0x0200) as [-> | ?]; [cbn; tauto |].
  destruct (Z.eq_dec raw 0x0201) as [-> | ?]; [cbn; tauto |].
  rewrite versionFromHex_other by assumption. cbn; tauto.
Qed.

Lemma advanceToNotNUL_Ok (p q : PState) (u : unit) :
  advanceToNotNUL p = Ok (u, q) -> exists x, q = set_pp p x.
Proof. unfold advanceToNotNUL. destruct u. intros [= <-]. eauto. Qed.

Lemma readFont_Ok (p q : PState) (f : Font) :
  readFont p = Ok (f, q) ->
  frame false p q /\ font_name f <> [] /\ font_size f <> 0.
Proof.
  unfold readFont. intros H.
  apply bind_Ok in H as (name & p1 & E1 & H). apply readToNUL_Ok in E1 as [x ->].
  apply bind_Ok in H as (style & p2 & E2 & H). apply byteToInt_Ok in E2 as [-> _].
  apply bind_Ok in H as (size & p3 & E3 & H). apply byteToInt_Ok in E3 as [-> _].
  apply bind_Ok in H as (un & p4 & E4 & H). apply byteToInt_Ok in E4 as [-> _].
  apply bind_Ok in H as (charset & p5 & E5 & H). apply byteToInt_Ok in E5 as [-> _].
  cbv zeta in H. apply ret_Ok in H as [-> ->].
  split; [repeat apply frame_pp; apply frame_refl |].
  cbn [font_name font_size]. split.
  - destruct (bool_decide (name = [])) eqn:D; [discriminate |].
    apply bool_decide_eq_false in D. exact D.
  - destruct (Z.eqb_spec size 0); [discriminate | assumption].
Qed.

Lemma repeatM_Forall {A} (body : M A) (P : A -> Prop) (n : nat) :
  (forall p a q, body p = Ok (a, q) -> P a) ->
  forall p l q, repeatM n body p = Ok (l, q) -> Forall P l.
Proof.
  intros Hb. induction n as [| n IH]; intros p l q H; cbn [repeatM] in H.
  - apply ret_Ok in H as [_ ->]. constructor.
  - apply bind_Ok in H as (x & p1 & E1 & H).
    apply bind_Ok in H as (xs & p2 & E2 & H).
    apply ret_Ok in H as [_ ->].
    constructor; [eapply Hb; exact E1 | eapply IH; exact E2].
Qed.

Lemma set_pp_frame (p q : PState) :
  (exists x, q = set_pp p x) -> frame false p q.
Proof. intros [x ->]. apply frame_pp, frame_refl. Qed.

Lemma readToNUL_frame (p q : PState) (v : bytes) :
  readToNUL true p = Ok (v, q) -> frame false p q.
Proof. intros H. apply set_pp_frame. eapply readToNUL_Ok. exact H. Qed.

Lemma readLEShort_frame (p q : PState) (v : Z) :
  readLEShort true p = Ok (v, q) -> frame false p q.
Proof. intros H. apply set_pp_frame. apply readLEShort_Ok in H. eauto. Qed.

Lemma byteToInt_frame (p q : PState) (v : Z) :
  byteToInt true p = Ok (v, q) -> frame false p q /\ 0 <= v < 256.
Proof.
  intros H. apply byteToInt_Ok in H as [-> R].
  split; [apply frame_pp, frame_refl | exact R].
Qed.

Lemma skipBytes_frame (n : Z) (p q : PState) (u : unit) :
  skipBytes n p = Ok (u, q) -> frame false p q.
Proof. intros H. apply set_pp_frame. apply skipBytes_Ok in H. eauto. Qed.

Lemma advanceToNotNUL_frame (p q : PState) (u : unit) :
  advanceToNotNUL p = Ok (u, q) -> frame false p q.
Proof. intros H. apply set_pp_frame. eapply advanceToNotNUL_Ok. exact H. Qed.

Lemma readFonts_frame (n : nat) (p q : PState) (l : list Font) :
  repeatM n readFont p = Ok (l, q) ->
  frame false p q
  /\ (length l = n
      /\ Forall (fun f => font_name f <> [] /\ font_size f <> 0) l).
Proof.
  intros H. split; [| split].
  - eapply repeatM_frame; [| exact H].
    intros p' a q' H'. apply readFont_Ok in H'. tauto.
  - eapply repeatM_length. exact H.
  - eapply repeatM_Forall; [| exact H].
    intros p' a q' H'. apply readFont_Ok in H'. tauto.
Qed.

(** Turns the equation of one call of the header decoder into what it
    leaves unchanged, without naming the position it reaches. *)
Ltac prim_frame E :=
  first
    [ apply readToNUL_frame in E
    | apply readLEShort_frame in E
    | apply byteToInt_frame in E as [E ?]
    | apply skipBytes_frame in E
    | apply advanceToNotNUL_frame in E
    | apply readFonts_frame in E as [E [? ?]]
    | apply ret_Ok in E as [-> ->]
    | discriminate E ].

Ltac run_frame H :=
  cbv beta zeta in H;
  repeat
    match type of H with
    | bind _ _ _ = Ok _ =>
        let E := fresh "E" in
        apply bind_Ok in H as (? & ? & E & H);
        cbv beta zeta in H; cbv beta zeta in E; run_frame E
    | (if ?c then _ else _) _ = Ok _ => destruct c eqn:?
    | _ => prim_frame H
    end.

(** Chains the facts left by [run_frame]. *)
Ltac chain_frames :=
  repeat match goal with
         | F1 : frame false ?a ?b, F2 : frame false ?b ?c |- _ =>
             pose proof (frame_strict_trans false a b c F1 F2);
             clear F1 F2
         end.

Section HeaderGating.
Context {C : Constants}.

(** The header that [parseHeader] returns.  The version stored is one of
    the eight known ones.  The lyricist and the notation typeface are read
    from version 200 on, the margins and the group-visibility and layering
    fields from version 130 on, and hold their constants below; the font
    table has 12 entries above version 170, 10 above 130 and none
    otherwise, each with a non-empty name and a non-zero size; the staff
    count is a byte.  In a version below 130 the staff loop raises
    [TypeError] as soon as the header declares a staff. *)
Theorem header_gating (p q : PState) (h : Header) :
  parseHeader p = Ok (h, q) ->
  let v := version q in
  In v [120; 130; 150; 155; 170; 175; 200; 201]
  /\ fileContents q = fileContents p
  /\ (lyricist h = PNone <-> v < 200)
  /\ (notationTypeface h = PStr "Maestro" <-> v < 200)
  /\ (margins h = PStr "0.0 0.0 0.0 0.0" <-> v < 130)
  /\ (groupVisibility h = PBool true <-> v < 130)
  /\ (allowLayering h = PBool true <-> v < 130)
  /\ length (fonts h)
     = (if 170 <? v then 12%nat else if 130 <? v then 10%nat else 0%nat)
  /\ Forall (fun f => font_name f <> [] /\ font_size f <> 0) (fonts h)
  /\ 0 <= numberOfStaves h <= 255
  /\ (forall fuel,
        v < 130 -> 0 < numberOfStaves h ->
        NWCConverter.parseStaves fuel (groupVisibility h) 0
          (Z.to_nat (numberOfStaves h)) q
        = Raise TypeError).
Proof.
  intros H. unfold parseHeader in H.
  apply bind_Ok in H as (b & p0 & E0 & H).
  destruct (isValidNWCFile_state true p) as (b' & x & E0').
  rewrite E0' in E0. injection E0 as _ <-.
  unfold parseHeaderFields in H.
  apply bind_Ok in H as (v & p1 & Ev & H).
  apply fileVersion_Ok in Ev as [-> Hv].
  run_frame H.
  all: chain_frames.
  all: match goal with
       | F : frame false _ ?s |- context [version ?s] =>
           destruct F as (HF & HV & _)
       end.
  all: cbv zeta;
    cbn [version fileContents set_pp set_version lyricist notationTypeface
         margins groupVisibility allowLayering fonts numberOfStaves] in *.
  all: rewrite HV.
  all: repeat match goal with
         | E : (_ <=? _) = true |- _ => apply Z.leb_le in E
         | E : (_ <=? _) = false |- _ => apply Z.leb_gt in E
         end.
  all: split; [exact Hv |]; split; [exact HF |].
  all: repeat (split; [split; intros; first [discriminate | lia | reflexivity] |]).
  all: split; [match goal with L : length _ = _ |- _ => rewrite L end;
               repeat match goal with
                 | |- context [?a <? ?b] => destruct (Z.ltb_spec a b)
                 end; first [reflexivity | lia] |].
  all: split; [assumption |]; split; [lia |].
  all: intros fuel H130 Hn; try lia.
  all: destruct (Z.to_nat _) as [| n] eqn:Hk; [lia |].
  all: reflexivity.
Qed.

End HeaderGating.

(** ** Compressed documents *)

Section Compressed.
Context {C : Constants}.

(** A buffer that starts with the six bytes [[NWZ]\0] is replaced by the
    decompression of what follows them before anything is decoded, and a
    failure of the decompression ends the decode; the result of the
    decompression is decoded as it is, with no second look for the marker.
    Any other buffer is decoded as it is. *)
Theorem parseContent_compressed (decompress : bytes -> result bytes)
    (fuel : nat) (rest : bytes) :
  let marker := (encode_ascii "[NWZ]" ++ [x00])%list in
  let decoded := fun fc =>
    match NWCConverter.parseBody fuel (NWCConverter.init fc) with
    | Ok ((h, staves), p) => Ok (NWCConverter.mk h staves p)
    | Raise e => Raise e
    | OutOfFuel => OutOfFuel
    end in
  (forall fc, decompress rest = Ok fc ->
     NWCConverter.parseContent decompress fuel (marker ++ rest)%list = decoded fc)
  /\ (forall e, decompress rest = Raise e ->
        NWCConverter.parseContent decompress fuel (marker ++ rest)%list = Raise e)
  /\ (forall fc, slice fc 0 6 <> marker ->
        NWCConverter.parseContent decompress fuel fc = decoded fc).
Proof.
  cbv zeta.
  assert (S1 : slice (encode_ascii "[NWZ]" ++ [x00] ++ rest)%list 0 6
               = (encode_ascii "[NWZ]" ++ [x00])%list).
  { rewrite slice_nonneg by lia. reflexivity. }
  assert (S2 : slice_from (encode_ascii "[NWZ]" ++ [x00] ++ rest)%list 6 = rest).
  { unfold slice_from, adjust.
    change (6 <? 0) with false. cbv iota.
    rewrite Z.min_l; [reflexivity |].
    rewrite !length_app. simpl. lia. }
  repeat split.
  - intros fc Hd. unfold NWCConverter.parseContent.
    rewrite <- app_assoc, S1, S2, Hd.
    rewrite bool_decide_eq_true_2 by reflexivity. reflexivity.
  - intros e Hd. unfold NWCConverter.parseContent.
    rewrite <- app_assoc, S1, S2, Hd.
    rewrite bool_decide_eq_true_2 by reflexivity. reflexivity.
  - intros fc Hne. unfold NWCConverter.parseContent.
    rewrite bool_decide_eq_false_2 by exact Hne. reflexivity.
Qed.

End Compressed.

(** ** Instances on concrete input *)

Lemma record_lengths_witness :
  let p := mkPState [x02; x00; x00; x00; x00; x00; x00; x00; x00; x00]
             0 175 PNone in
  exists o q,
    @NWCObject.keySig sample_constants NWCObject.StaffParent 0 p = Ok (o, q)
    /\ parsePosition q - parsePosition p = 10.
Proof.
  intros p.
  destruct (@NWCObject.keySig sample_constants NWCObject.StaffParent 0 p)
    as [[o q] | |] eqn:E; try (vm_compute in E; discriminate).
  exists o, q. split; [reflexivity |].
  destruct (@record_lengths sample_constants NWCObject.StaffParent 0 p q o)
    as (_ & H & _); [simpl; lia |].
  exact (H E).
Defined.

Lemma duration_of_note_witness :
  NWCObject.setDurationForObject true 3 (Some [x04; x20]) None
    (mkPState [] 0 175 PNone)
  = Ok ((4, 1, "8th,Dotted,Grace"), mkPState [] 0 175 PNone).
Proof.
  destruct (duration_of_note 3 x04 x20 None (mkPState [] 0 175 PNone))
    as [H _]; [lia |].
  destruct (H ltac:(lia)) as (name & L & E).
  rewrite E. vm_compute in L. injection L as <-. reflexivity.
Defined.

Lemma parseObjects_frame_witness :
  let p := mkPState [x03; x00; x11; x00; x00; x00; x00; x00; x41; x00]
             0 175 (PStr "Violin") in
  exists r q,
    @NWCStaff.parseObjects sample_constants 1 p = Ok (r, q)
    /\ map NWCObject.type (snd r) = ["Text"]
    /\ staffLabel q = PStr "Violin".
Proof.
  intros p.
  destruct (@NWCStaff.parseObjects sample_constants 1 p) as [[r q] | |] eqn:E;
    try (vm_compute in E; discriminate).
  exists r, q. split; [reflexivity |].
  destruct (@parseObjects_frame sample_constants 1 p q r E) as (_ & _ & L).
  split; [vm_compute in E; injection E as <- _; reflexivity |].
  apply L. discriminate.
Defined.


Lemma parseStaves_staves_witness :
  exists h q staves q',
    parseHeader (NWCConverter.init docA) = Ok (h, q)
    /\ @NWCConverter.parseStaves sample_constants 5 (groupVisibility h) 0
         (Z.to_nat (numberOfStaves h)) q = Ok (staves, q')
    /\ (length staves <= Z.to_nat (numberOfStaves h))%nat
    /\ Forall (fun s => NWCStaff.instrumentName s <> PStr "Gunshot") staves.
Proof.
  destruct (parseHeader (NWCConverter.init docA)) as [[h q] | |] eqn:E;
    try (vm_compute in E; discriminate).
  destruct (@NWCConverter.parseStaves sample_constants 5 (groupVisibility h) 0
              (Z.to_nat (numberOfStaves h)) q) as [[staves q'] | |] eqn:S;
    try (vm_compute in E; injection E as <- <-; vm_compute in S; discriminate S).
  exists h, q, staves, q'. split; [reflexivity |]. split; [exact S |].
  exact (@parseStaves_staves sample_constants 5 _ _ _ _ _ _ S).
Defined.

Lemma header_gating_witness :
  exists h q,
    parseHeader (NWCConverter.init docA) = Ok (h, q)
    /\ version q = 175
    /\ length (fonts h) = 12%nat
    /\ lyricist h = PNone.
Proof.
  destruct (parseHeader (NWCConverter.init docA)) as [[h q] | |] eqn:E;
    try (vm_compute in E; discriminate).
  exists h, q. split; [reflexivity |].
  destruct (@header_gating sample_constants _ _ _ E)
    as (_ & _ & HL & _ & _ & _ & _ & HF & _).
  cbv zeta in HL, HF.
  assert (V : version q = 175) by (vm_compute in E; injection E as _ <-; reflexivity).
  rewrite V in HL, HF.
  split; [exact V |]. split; [exact HF |]. apply HL. lia.
Defined.
